(** * eventsource: the Repository, the in-memory Store and the error taxonomy

    A shallow embedding of the Go package [eventsource]
    (errors, store.go, repository) and the properties its specification
    states about it. *)

From Stdlib Require Import ZArith List String Ascii Lia Sorted Permutation.
From Stdlib Require Import Strings.Byte.
From stdpp Require Import base option list gmap strings.

Local Open Scope string_scope.
Local Open Scope list_scope.
Local Open Scope Z_scope.

(** ** Errors

    [type errorType string]: a sentinel error is a string constant, compared
    by value.  The other error values the package builds are
    [errors.New]/[fmt.Errorf] without the wrapping verb (a flat message, no
    [Unwrap]) and [xerrors.Errorf] with a trailing [": %w"] (a message and
    the wrapped cause). *)

Definition errorType := string.

Inductive error : Type :=
| ErrorType (e : errorType)
| ErrorString (msg : string)
| WrapError (msg : string) (err : error).

Definition errInvalidEncoding : errorType := "InvalidEncoding".
Definition errUnboundEventType : errorType := "UnboundEventType".
Definition errAggregateNotFound : errorType := "AggregateNotFound".
Definition errUnhandledEvent : errorType := "UnhandledEvent".

(** [func (e errorType) Error() string], and the [Error] methods of the
    library's error values. *)
Fixpoint Error (err : error) : string :=
  match err with
  | ErrorType e => e
  | ErrorString msg => msg
  | WrapError msg err => msg +:+ ": " +:+ Error err
  end.

Definition Unwrap (err : error) : option error :=
  match err with
  | WrapError _ cause => Some cause
  | _ => None
  end.

(** [xerrors.Is(err, target)] for a sentinel target: walk the [Unwrap]
    chain and compare each link with [==].  A value that is not an
    [errorType] never equals the sentinel; [nil] has no chain. *)
Fixpoint Is_chain (err : error) (target : errorType) : bool :=
  match err with
  | ErrorType e => String.eqb e target
  | ErrorString _ => false
  | WrapError _ cause => Is_chain cause target
  end.

Definition xerrors_Is (err : option error) (target : errorType) : bool :=
  match err with
  | None => false
  | Some err => Is_chain err target
  end.

Definition IsNotFoundError (err : option error) : bool :=
  xerrors_Is err errAggregateNotFound.

(** ** Records and histories (store.go) *)

Record Record_ : Type := mkRecord {
  Version : Z;
  Data : list byte
}.

(** [type History []Record] *)
Abbreviation History := (list Record_) (only parsing).

Definition Len (h : History) : nat := length h.

(** [h[i], h[j] = h[j], h[i]]; an index out of range panics in Go, the
    model leaves the history as it is. *)
Definition Swap (h : History) (i j : nat) : History :=
  match h !! i, h !! j with
  | Some a, Some b => <[j := a]> (<[i := b]> h)
  | _, _ => h
  end.

Definition Less (h : History) (i j : nat) : bool :=
  match h !! i, h !! j with
  | Some a, Some b => Version a <? Version b
  | _, _ => false
  end.

(** [sort.Sort] is the Go standard library's; it only promises a
    permutation ordered by [Less] (no stability).  It is embedded as the
    insertion sort the library itself runs on short slices: [insert_sorted]
    moves the new record left while it is [Less] than its neighbour. *)
Definition record_less (a b : Record_) : bool := Version a <? Version b.

Fixpoint insert_sorted (r : Record_) (h : History) : History :=
  match h with
  | [] => [r]
  | x :: rest => if record_less r x then r :: x :: rest
                 else x :: insert_sorted r rest
  end.

Fixpoint sort_Sort (h : History) : History :=
  match h with
  | [] => []
  | r :: rest => insert_sorted r (sort_Sort rest)
  end.

(** ** memoryStore *)

Module memoryStore.

(** The store is its [eventsByID map[string]History]; the mutex carries no
    data. *)

Definition newMemoryStore : gmap string History := ∅.

Definition Save (m : gmap string History) (aggregateID : string)
    (records : list Record_) : gmap string History * option error :=
  let m1 := match m !! aggregateID with
            | Some _ => m
            | None => <[aggregateID := []]> m
            end in
  let history := sort_Sort (default [] (m1 !! aggregateID) ++ records) in
  (<[aggregateID := history]> m1, None).

(** The range filter of [Load], as the loop computes it. *)
Definition in_range (fromVersion toVersion : Z) (record : Record_) : bool :=
  let v := Version record in
  (fromVersion <=? v) && ((toVersion =? 0) || (v <=? toVersion)).

Definition Load (m : gmap string History) (aggregateID : string)
    (fromVersion toVersion : Z) : error + History :=
  match m !! aggregateID with
  | None =>
      inl (WrapError ("no aggregate found with id, " +:+ aggregateID)
                     (ErrorType errAggregateNotFound))
  | Some all =>
      let history :=
        if (0 <? length all)%nat
        then List.filter (in_range fromVersion toVersion) all
        else [] in
      inr all
  end.

End memoryStore.

(** ** The interfaces the Repository consumes

    [Event], [Command], [Aggregate], [CommandHandler], [Serializer] and
    [Store] are Go interfaces.  The first three become type classes over
    the carrier types; the two the Repository holds as values become
    records of functions. *)

(** [Event]: [AggregateID], [EventVersion], [EventAt].  [EventType] is the
    helper of util.go that [Load] calls to name an event in its message
    (the type's name, or what its [EventType()] method returns); it is
    taken as part of the interface. *)
Class Event (E : Type) := {
  AggregateID : E -> string;
  EventVersion : E -> Z;
  EventAt : E -> Z;
  EventType : E -> string
}.

Class Command (C : Type) := {
  CommandAggregateID : C -> string
}.

(** [Aggregate]: [On] works on a pointer receiver, so it may change the
    aggregate whether or not it reports an error; the model returns the
    aggregate after the call together with the error.  [zero] is the value
    [reflect.New(prototype)] allocates, [TypeName] what ["%T"] prints and
    [Sprint] what ["%v"] prints.  [asCommandHandler] is the outcome of the
    type assertion [aggregate.(CommandHandler)], which depends on the
    aggregate's type only. *)
Class Aggregate (A E C : Type) := {
  zero : A;
  On : A -> E -> A * option error;
  TypeName : string;
  Sprint : A -> string;
  asCommandHandler : option (A -> C -> A * (error + list E))
}.

Record Serializer (E : Type) : Type := mkSerializer {
  MarshalEvent : E -> error + Record_;
  UnmarshalEvent : Record_ -> error + E
}.
Arguments MarshalEvent {E} _ _.
Arguments UnmarshalEvent {E} _ _.

Record SaveAggregateInput (A E : Type) : Type := mkSaveAggregateInput {
  input_AggregateID : string;
  input_Aggregate : A;
  input_Events : list E;
  input_Records : list Record_
}.

(** A store has at most one method called [SaveAggregate]: with the
    signature of the deprecated [StoreAggregate], with the signature of
    [AggregateSaver], or none.  A Go type cannot carry both. *)
Inductive SaveAggregateMethod (S A E : Type) : Type :=
| NoSaveAggregate
| StoreAggregate_SaveAggregate
    (f : S -> string -> A -> list Record_ -> S * option error)
| AggregateSaver_SaveAggregate
    (f : S -> SaveAggregateInput A E -> S * option error).
Arguments NoSaveAggregate {S A E}.
Arguments StoreAggregate_SaveAggregate {S A E} f.
Arguments AggregateSaver_SaveAggregate {S A E} f.

(** [Store], over the state [S] of the implementation behind it. *)
Record Store (S A E : Type) : Type := mkStore {
  Store_Save : S -> string -> list Record_ -> S * option error;
  Store_Load : S -> string -> Z -> Z -> S * (error + History);
  Store_SaveAggregate : SaveAggregateMethod S A E
}.
Arguments Store_Save {S A E} _ _ _ _.
Arguments Store_Load {S A E} _ _ _ _ _.
Arguments Store_SaveAggregate {S A E} _.

(** What a Repository call does to the outside: the calls it makes on the
    Store, with what the Store answered, and the observers it invokes. *)
Inductive Effect (A E : Type) : Type :=
| CallLoad (aggregateID : string) (fromVersion toVersion : Z)
           (err : option error)
| CallSave (aggregateID : string) (records : list Record_)
           (err : option error)
| CallSaveAggregate (aggregateID : string) (aggregate : A)
                    (records : list Record_) (err : option error)
| CallObserver (observer : nat) (event : E).
Arguments CallLoad {A E} _ _ _ _.
Arguments CallSave {A E} _ _ _.
Arguments CallSaveAggregate {A E} _ _ _ _.
Arguments CallObserver {A E} _ _.

Definition isObserver {A E} (x : Effect A E) : bool :=
  match x with CallObserver _ _ => true | _ => false end.

Definition isWrite {A E} (x : Effect A E) : bool :=
  match x with
  | CallSave _ _ _ | CallSaveAggregate _ _ _ _ => true
  | _ => false
  end.

Definition isPlainSave {A E} (x : Effect A E) : bool :=
  match x with CallSave _ _ _ => true | _ => false end.

(** A write the Store accepted. *)
Definition isPersisted {A E} (x : Effect A E) : bool :=
  match x with
  | CallSave _ _ None | CallSaveAggregate _ _ _ None => true
  | _ => false
  end.

(** ** The Repository

    A method of the Repository runs against the state of the Store and
    yields its results, the new state and the effects in the order they
    happened. *)
Section Repository.

Context {S A E C : Type}.
Context `{Event E} `{Command C} `{Aggregate A E C}.

Definition M (X : Type) : Type := S -> X * S * list (Effect A E).

Definition ret {X} (x : X) : M X := fun s => (x, s, []).

Definition bind {X Y} (m : M X) (k : X -> M Y) : M Y :=
  fun s =>
    let '(x, s1, t1) := m s in
    let '(y, s2, t2) := k x s1 in
    (y, s2, t1 ++ t2).

Notation "'do' x <- m ; k" := (bind m (fun x => k))
  (at level 10, x pattern, m at level 100, k at level 200).

(** [observers] holds the identities of the registered callbacks; the
    debug writer only prints. *)
Record Repository : Type := mkRepository {
  store : Store S A E;
  serializer : Serializer E;
  observers : list nat
}.

Definition newAggregate (r : Repository) : A := zero.

Definition store_Load (r : Repository) (aggregateID : string)
    (fromVersion toVersion : Z) : M (error + History) :=
  fun s =>
    let '(s1, res) := Store_Load (store r) s aggregateID fromVersion toVersion in
    (res, s1,
     [CallLoad aggregateID fromVersion toVersion
               (match res with inl err => Some err | inr _ => None end)]).

Definition store_Save (r : Repository) (aggregateID : string)
    (records : list Record_) : M (option error) :=
  fun s =>
    let '(s1, err) := Store_Save (store r) s aggregateID records in
    (err, s1, [CallSave aggregateID records err]).

Definition store_SaveAggregate
    (f : S -> string -> A -> list Record_ -> S * option error)
    (aggregateID : string) (aggregate : A) (records : list Record_)
    : M (option error) :=
  fun s =>
    let '(s1, err) := f s aggregateID aggregate records in
    (err, s1, [CallSaveAggregate aggregateID aggregate records err]).

Definition observer_call (observer : nat) (event : E) : M unit :=
  fun s => (tt, s, [CallObserver observer event]).

Fixpoint makeRecords (r : Repository) (events : list E)
    : error + list Record_ :=
  match events with
  | [] => inr []
  | event :: rest =>
      match MarshalEvent (serializer r) event with
      | inl err => inl err
      | inr record =>
          match makeRecords r rest with
          | inl err => inl err
          | inr records => inr (record :: records)
          end
      end
  end.

Definition Repository_Save (r : Repository) (events : list E)
    : M (option error) :=
  match events with
  | [] => ret None
  | first :: _ =>
      let aggregateID := AggregateID first in
      match makeRecords r events with
      | inl err => ret (Some err)
      | inr records => store_Save r aggregateID records
      end
  end.

(** The loop of [Load] over the history. *)
Fixpoint replay (r : Repository) (history : History) (aggregate : A)
    (version : Z) : option A * Z * option error :=
  match history with
  | [] => (Some aggregate, version, None)
  | record :: rest =>
      match UnmarshalEvent (serializer r) record with
      | inl err => (None, 0, Some err)
      | inr event =>
          let '(aggregate1, err) := On aggregate event in
          match err with
          | Some err =>
              (None, 0,
               Some (WrapError
                       ("aggregate was unable to handle event, "
                          +:+ EventType event) err))
          | None => replay r rest aggregate1 (EventVersion event)
          end
      end
  end.

Definition Repository_Load (r : Repository) (aggregateID : string)
    : M (option A * Z * option error) :=
  do res <- store_Load r aggregateID 0 0;
  match res with
  | inl err => ret (None, 0, Some err)
  | inr history =>
      let entryCount := length history in
      if (entryCount =? 0)%nat
      then ret (None, 0,
                Some (WrapError
                        ("unable to load " +:+ TypeName +:+ ", "
                           +:+ aggregateID)
                        (ErrorType errAggregateNotFound)))
      else ret (replay r history (newAggregate r) 0)
  end.

(** The loop of [Apply] that folds the generated events into the
    aggregate before [SaveAggregate]; its error is built by [fmt.Errorf]
    with ["%v"], so it carries the cause's text and has no [Unwrap]. *)
Fixpoint foldEvents (aggregateID : string) (aggregate : A)
    (events : list E) : A * option error :=
  match events with
  | [] => (aggregate, None)
  | event :: rest =>
      let '(aggregate1, err) := On aggregate event in
      match err with
      | Some err =>
          (aggregate1,
           Some (ErrorString
                   ("unable to apply generated events to aggregate, "
                      +:+ aggregateID +:+ ": " +:+ Error err)))
      | None => foldEvents aggregateID aggregate1 rest
      end
  end.

Fixpoint notify (observers : list nat) (event : E) : M unit :=
  match observers with
  | [] => ret tt
  | observer :: rest =>
      do _ <- observer_call observer event; notify rest event
  end.

Fixpoint publish (r : Repository) (events : list E) : M unit :=
  match events with
  | [] => ret tt
  | event :: rest =>
      do _ <- notify (observers r) event; publish r rest
  end.

(** The persistence step of [Apply]: [SaveAggregate] when the store
    passes the assertion [r.store.(StoreAggregate)], [r.Save]
    otherwise. *)
Definition persist (r : Repository) (aggregateID : string) (aggregate : A)
    (events : list E) (records : list Record_) : M (option error) :=
  match Store_SaveAggregate (store r) with
  | StoreAggregate_SaveAggregate f =>
      let '(aggregate1, err) := foldEvents aggregateID aggregate events in
      match err with
      | Some err => ret (Some err)
      | None => store_SaveAggregate f aggregateID aggregate1 records
      end
  | _ => Repository_Save r events
  end.

(** [Apply] from the type assertion [aggregate.(CommandHandler)] on:
    [aggregate] and [version] are what [Load] left, or the fresh
    aggregate. *)
Definition applyCommand (r : Repository) (command : C)
    (aggregateID : string) (aggregate : option A) (version : Z)
    : M (Z * option error) :=
  match aggregate, asCommandHandler with
  | Some aggregate, Some h =>
      let '(aggregate1, res) := h aggregate command in
      match res with
      | inl err => ret (0, Some err)
      | inr events =>
          match makeRecords r events with
          | inl err => ret (0, Some err)
          | inr records =>
              do err <- persist r aggregateID aggregate1 events records;
              match err with
              | Some err => ret (0, Some err)
              | None =>
                  let version1 :=
                    match last events with
                    | Some event => EventVersion event
                    | None => version
                    end in
                  do _ <- publish r events;
                  ret (version1, None)
              end
          end
      end
  | Some aggregate, None =>
      ret (0, Some (ErrorString
                      ("aggregate, " +:+ Sprint aggregate
                         +:+ ", does not implement CommandHandler")))
  | None, _ =>
      ret (0, Some (ErrorString
                      "aggregate, <nil>, does not implement CommandHandler"))
  end.

(** [command] is an interface value: [None] is the nil command. *)
Definition Repository_Apply (r : Repository) (command : option C)
    : M (Z * option error) :=
  match command with
  | None =>
      ret (0, Some (ErrorString
                      "command provided to Repository.Apply may not be nil"))
  | Some command =>
      let aggregateID := CommandAggregateID command in
      if String.eqb aggregateID ""
      then ret (0, Some (ErrorString
             "command provided to Repository.Apply may not contain a blank AggregateID"))
      else
        do (aggregate, version, err) <- Repository_Load r aggregateID;
        let aggregate1 :=
          match err with
          | Some _ => Some (newAggregate r)
          | None => aggregate
          end in
        applyCommand r command aggregateID aggregate1 version
  end.

End Repository.

(** ** The JSON serializer *)

(** The envelope the serializer stores in [Record.Data]: the name of the
    event's type and the encoded payload. *)
Record jsonEvent : Type := mkJsonEvent {
  json_Type : string;
  json_Data : list byte
}.

(** Modelled from the spec: the payload encoder under the serializer
    (encoding/json and reflection, which the spec leaves to the codec) is
    missing from the sources.  [TypeOf] is the event's concrete type with a
    pointer normalised to the value type, [New] allocates the zero value of
    a type, [Marshal] may reject a value, [Unmarshal] decodes a payload into
    an allocated instance, and the envelope has its own pair.  What the
    encoder accepts, the decoder reads back. *)
Record Codec (E T : Type) : Type := mkCodec {
  TypeOf : E -> T;
  New : T -> E;
  Marshal : E -> option (list byte);
  Unmarshal : list byte -> E -> option E;
  MarshalEnvelope : jsonEvent -> option (list byte);
  UnmarshalEnvelope : list byte -> option jsonEvent;
  Unmarshal_Marshal : forall (event : E) (data : list byte),
    Marshal event = Some data ->
    Unmarshal data (New (TypeOf event)) = Some event;
  UnmarshalEnvelope_MarshalEnvelope : forall (j : jsonEvent) (data : list byte),
    MarshalEnvelope j = Some data -> UnmarshalEnvelope data = Some j
}.
Arguments TypeOf {E T} _ _.
Arguments New {E T} _ _.
Arguments Marshal {E T} _ _.
Arguments Unmarshal {E T} _ _ _.
Arguments MarshalEnvelope {E T} _ _.
Arguments UnmarshalEnvelope {E T} _ _.

Section JSONSerializer.

Context {E T : Type} `{Event E}.
Variable codec : Codec E T.

(** Modelled from the spec: serializer.go is missing from the sources.  The
    registry maps an event-type name to the type bound under it; [Bind]
    registers the type of one example under its name. *)
Definition Bind (registry : gmap string T) (event : E) : gmap string T :=
  <[EventType event := TypeOf codec event]> registry.

(** Modelled from the spec: serializer.go is missing from the sources.  The
    registry is built once, from the examples given at construction. *)
Definition newRegistry (events : list E) : gmap string T :=
  foldl Bind ∅ events.

Definition invalidEncoding (msg : string) : error :=
  WrapError msg (ErrorType errInvalidEncoding).

(** Modelled from the spec: serializer.go is missing from the sources.
    [MarshalEvent] encodes the payload, records the type name beside it
    and keeps the event's version; a value the encoder rejects is an
    [InvalidEncoding] failure. *)
Definition JSON_MarshalEvent (event : E) : error + Record_ :=
  let eventType := EventType event in
  match Marshal codec event with
  | None => inl (invalidEncoding "unable to encode event")
  | Some data =>
      match MarshalEnvelope codec (mkJsonEvent eventType data) with
      | None => inl (invalidEncoding "unable to encode event")
      | Some encoded => inr (mkRecord (EventVersion event) encoded)
      end
  end.

(** Modelled from the spec: serializer.go is missing from the sources.
    [MarshalAll] is the batch form and stops at the first failure. *)
Fixpoint JSON_MarshalAll (events : list E) : error + History :=
  match events with
  | [] => inr []
  | event :: rest =>
      match JSON_MarshalEvent event with
      | inl err => inl err
      | inr record =>
          match JSON_MarshalAll rest with
          | inl err => inl err
          | inr history => inr (record :: history)
          end
      end
  end.

(** Modelled from the spec: serializer.go is missing from the sources.
    [UnmarshalEvent] reads the type name out of the encoding, looks the
    type up, allocates its zero value and decodes the payload into it. *)
Definition JSON_UnmarshalEvent (registry : gmap string T) (record : Record_)
    : error + E :=
  match UnmarshalEnvelope codec (Data record) with
  | None => inl (invalidEncoding "unable to unmarshal event")
  | Some wrapper =>
      match registry !! json_Type wrapper with
      | None =>
          inl (WrapError ("unbound event type, " +:+ json_Type wrapper)
                         (ErrorType errUnboundEventType))
      | Some t =>
          let v := New codec t in
          match Unmarshal codec (json_Data wrapper) v with
          | None =>
              inl (invalidEncoding
                     ("unable to unmarshal event data into "
                        +:+ json_Type wrapper))
          | Some event => inr event
          end
      end
  end.

Definition NewJSONSerializer (events : list E) : Serializer E :=
  mkSerializer E JSON_MarshalEvent (JSON_UnmarshalEvent (newRegistry events)).

(** An event's type is registered when the registry resolves the event's
    type name to the event's own type. *)
Definition registered (events : list E) (event : E) : Prop :=
  newRegistry events !! EventType event = Some (TypeOf codec event).

End JSONSerializer.

(** ** The in-memory store as a [Store] *)

Definition memoryStore_Store (A E : Type)
    : Store (gmap string History) A E :=
  mkStore (gmap string History) A E
    memoryStore.Save
    (fun m aggregateID fromVersion toVersion =>
       (m, memoryStore.Load m aggregateID fromVersion toVersion))
    NoSaveAggregate.

(** ** The aggregate of the repository's tests

    [Entity], its events and its commands, as the tests declare them, with
    a small length-prefixed payload encoding standing for the JSON one. *)
Module Fixture.

(** [eventsource.Model], the embeddable base of an event. *)
Record Model : Type := mkModel {
  ID : string;
  Model_Version : Z;
  At : Z
}.

Inductive TestEvent : Type :=
| EntityCreated (m : Model)
| EntityNameSet (m : Model) (Name : string)
| EntitySetName (m : Model) (Name : string).

Inductive TestEventType : Type :=
| TEntityCreated | TEntityNameSet | TEntitySetName.

Definition model_of (event : TestEvent) : Model :=
  match event with
  | EntityCreated m | EntityNameSet m _ | EntitySetName m _ => m
  end.

Definition type_of (event : TestEvent) : TestEventType :=
  match event with
  | EntityCreated _ => TEntityCreated
  | EntityNameSet _ _ => TEntityNameSet
  | EntitySetName _ _ => TEntitySetName
  end.

Definition type_name (t : TestEventType) : string :=
  match t with
  | TEntityCreated => "EntityCreated"
  | TEntityNameSet => "EntityNameSet"
  | TEntitySetName => "EntitySetName"
  end.

Definition new_of (t : TestEventType) : TestEvent :=
  match t with
  | TEntityCreated => EntityCreated (mkModel "" 0 0)
  | TEntityNameSet => EntityNameSet (mkModel "" 0 0) ""
  | TEntitySetName => EntitySetName (mkModel "" 0 0) ""
  end.

#[export] Instance TestEvent_Event : Event TestEvent := {|
  AggregateID := fun event => ID (model_of event);
  EventVersion := fun event => Model_Version (model_of event);
  EventAt := fun event => At (model_of event);
  EventType := fun event => type_name (type_of event)
|}.

(** [eventsource.CommandModel] under the two commands of the tests. *)
Inductive TestCommand : Type :=
| CreateEntity (id : string)
| Nop (id : string).

#[export] Instance TestCommand_Command : Command TestCommand := {|
  CommandAggregateID := fun command =>
    match command with CreateEntity id | Nop id => id end
|}.

Record Entity : Type := mkEntity {
  Entity_Version : Z;
  Entity_ID : string;
  Entity_Name : string;
  CreatedAt : Z;
  UpdatedAt : Z
}.

Definition Entity_On (item : Entity) (event : TestEvent)
    : Entity * option error :=
  match event with
  | EntityCreated m =>
      (mkEntity (Model_Version m) (ID m) (Entity_Name item) (At m) (At m),
       None)
  | EntityNameSet m name =>
      (mkEntity (Model_Version m) (Entity_ID item) name (CreatedAt item)
                (At m),
       None)
  | _ => (item, Some (ErrorString "UnhandledEvent"))
  end.

(** The reading of the clock in [Entity.Apply]. *)
Definition time_Now : Z := 5.

Definition Entity_Apply (item : Entity) (command : TestCommand)
    : Entity * (error + list TestEvent) :=
  match command with
  | CreateEntity id =>
      (item,
       inr [EntityCreated (mkModel id (Entity_Version item + 1) time_Now)])
  | Nop _ => (item, inr [])
  end.

#[export] Instance Entity_Aggregate : Aggregate Entity TestEvent TestCommand := {|
  zero := mkEntity 0 "" "" 0 0;
  On := Entity_On;
  TypeName := "*eventsource_test.Entity";
  Sprint := fun item => Entity_ID item;
  asCommandHandler := Some Entity_Apply
|}.

(** *** The payload encoding: naturals in unary, strings behind their
    length, integers behind a sign byte. *)

Fixpoint put_nat (n : nat) : list byte :=
  match n with
  | O => [x00]
  | S n => x01 :: put_nat n
  end.

Fixpoint get_nat (data : list byte) : option (nat * list byte) :=
  match data with
  | [] => None
  | b :: rest =>
      if Byte.eqb b x00 then Some (O, rest)
      else if Byte.eqb b x01
           then match get_nat rest with
                | Some (n, rest1) => Some (Datatypes.S n, rest1)
                | None => None
                end
           else None
  end.

Definition put_Z (z : Z) : list byte :=
  (if z <? 0 then x01 else x00) :: put_nat (Z.abs_nat z).

Definition get_Z (data : list byte) : option (Z * list byte) :=
  match data with
  | [] => None
  | sign :: rest =>
      match get_nat rest with
      | Some (n, rest1) =>
          Some (if Byte.eqb sign x01 then - Z.of_nat n else Z.of_nat n, rest1)
      | None => None
      end
  end.

Definition put_string (s : string) : list byte :=
  let bytes := list_byte_of_string s in
  put_nat (length bytes) ++ bytes.

Definition get_string (data : list byte) : option (string * list byte) :=
  match get_nat data with
  | Some (n, rest) =>
      if (n <=? length rest)%nat
      then Some (string_of_list_byte (take n rest), drop n rest)
      else None
  | None => None
  end.

Definition put_Model (m : Model) : list byte :=
  put_string (ID m) ++ put_Z (Model_Version m) ++ put_Z (At m).

Definition get_Model (data : list byte) : option (Model * list byte) :=
  match get_string data with
  | Some (id, rest) =>
      match get_Z rest with
      | Some (version, rest1) =>
          match get_Z rest1 with
          | Some (at_, rest2) => Some (mkModel id version at_, rest2)
          | None => None
          end
      | None => None
      end
  | None => None
  end.

Definition test_Marshal (event : TestEvent) : option (list byte) :=
  match event with
  | EntityCreated m => Some (put_Model m)
  | EntityNameSet m name | EntitySetName m name =>
      Some (put_Model m ++ put_string name)
  end.

(** Decoding fills the instance it is given, so the instance decides which
    fields are read. *)
Definition test_Unmarshal (data : list byte) (v : TestEvent)
    : option TestEvent :=
  match get_Model data with
  | None => None
  | Some (m, rest) =>
      match v with
      | EntityCreated _ =>
          match rest with [] => Some (EntityCreated m) | _ => None end
      | EntityNameSet _ _ =>
          match get_string rest with
          | Some (name, []) => Some (EntityNameSet m name)
          | _ => None
          end
      | EntitySetName _ _ =>
          match get_string rest with
          | Some (name, []) => Some (EntitySetName m name)
          | _ => None
          end
      end
  end.

Definition test_MarshalEnvelope (j : jsonEvent) : option (list byte) :=
  Some (put_string (json_Type j) ++ json_Data j).

Definition test_UnmarshalEnvelope (data : list byte) : option jsonEvent :=
  match get_string data with
  | Some (name, rest) => Some (mkJsonEvent name rest)
  | None => None
  end.

Lemma get_put_nat (n : nat) (rest : list byte) :
  get_nat (put_nat n ++ rest) = Some (n, rest).
Proof.
  induction n as [|n IH]; simpl; [reflexivity|].
  now rewrite IH.
Qed.

Lemma get_put_Z (z : Z) (rest : list byte) :
  get_Z (put_Z z ++ rest) = Some (z, rest).
Proof.
  unfold get_Z, put_Z. simpl. rewrite get_put_nat.
  destruct (Z.ltb_spec z 0); simpl; do 2 f_equal; lia.
Qed.

Lemma get_put_string (s : string) (rest : list byte) :
  get_string (put_string s ++ rest) = Some (s, rest).
Proof.
  unfold get_string, put_string.
  rewrite <- app_assoc, get_put_nat.
  set (bytes := list_byte_of_string s).
  assert (length bytes <= length (bytes ++ rest))%nat as Hle
    by (rewrite length_app; lia).
  apply Nat.leb_le in Hle. rewrite Hle.
  rewrite take_app_length, drop_app_length.
  unfold bytes. now rewrite string_of_list_byte_of_string.
Qed.

Lemma get_put_Model (m : Model) (rest : list byte) :
  get_Model (put_Model m ++ rest) = Some (m, rest).
Proof.
  unfold get_Model, put_Model.
  rewrite <- !app_assoc, get_put_string, get_put_Z, get_put_Z.
  now destruct m.
Qed.

Lemma test_Unmarshal_Marshal (event : TestEvent) (data : list byte) :
  test_Marshal event = Some data ->
  test_Unmarshal data (new_of (type_of event)) = Some event.
Proof.
  destruct event as [m|m name|m name]; simpl; intros [= <-];
    unfold test_Unmarshal.
  - rewrite <- (app_nil_r (put_Model m)), get_put_Model. reflexivity.
  - rewrite get_put_Model.
    rewrite <- (app_nil_r (put_string name)), get_put_string. reflexivity.
  - rewrite get_put_Model.
    rewrite <- (app_nil_r (put_string name)), get_put_string. reflexivity.
Qed.

Lemma test_UnmarshalEnvelope_MarshalEnvelope (j : jsonEvent) (data : list byte) :
  test_MarshalEnvelope j = Some data -> test_UnmarshalEnvelope data = Some j.
Proof.
  unfold test_MarshalEnvelope, test_UnmarshalEnvelope. intros [= <-].
  rewrite get_put_string. now destruct j.
Qed.

Definition testCodec : Codec TestEvent TestEventType :=
  mkCodec TestEvent TestEventType
    type_of new_of test_Marshal test_Unmarshal
    test_MarshalEnvelope test_UnmarshalEnvelope
    test_Unmarshal_Marshal test_UnmarshalEnvelope_MarshalEnvelope.

End Fixture.

(** * Properties *)

(** ** The in-memory store *)

Definition ascending (h : History) : Prop :=
  StronglySorted (fun a b => Version a <= Version b) h.

Definition strictly_ascending (h : History) : Prop :=
  StronglySorted (fun a b => Version a < Version b) h.

(** The state of the store after a run of [Save] calls. *)
Definition saveAll (calls : list (string * list Record_))
    (m : gmap string History) : gmap string History :=
  foldl (fun m call => fst (memoryStore.Save m (fst call) (snd call))) m calls.

(** The records the calls saved under one identity, in call order. *)
Definition savedFor (aggregateID : string)
    (calls : list (string * list Record_)) : list Record_ :=
  flat_map (fun call => if String.eqb (fst call) aggregateID
                        then snd call else []) calls.

Definition savedTo (aggregateID : string)
    (calls : list (string * list Record_)) : bool :=
  existsb (fun call => String.eqb (fst call) aggregateID) calls.

Lemma insert_sorted_Permutation (r : Record_) (h : History) :
  Permutation (insert_sorted r h) (r :: h).
Proof.
  induction h as [|x rest IH]; simpl; [reflexivity|].
  destruct (record_less r x); [reflexivity|].
  rewrite IH. apply perm_swap.
Qed.

Lemma sort_Sort_Permutation (h : History) : Permutation (sort_Sort h) h.
Proof.
  induction h as [|r rest IH]; simpl; [reflexivity|].
  rewrite insert_sorted_Permutation. now constructor.
Qed.

Lemma insert_sorted_ascending (r : Record_) (h : History) :
  ascending h -> ascending (insert_sorted r h).
Proof.
  unfold ascending. induction h as [|x rest IH]; simpl; intros Hs.
  - repeat constructor.
  - apply StronglySorted_inv in Hs as [Hrest Hx].
    unfold record_less. destruct (Z.ltb_spec (Version r) (Version x)).
    + constructor; [constructor; assumption|].
      constructor; [lia|].
      eapply Forall_impl; [exact Hx|]. simpl. intros; lia.
    + constructor; [auto|].
      rewrite (Forall_forall (fun b => Version x <= Version b)).
      intros y Hy.
      rewrite insert_sorted_Permutation in Hy.
      apply elem_of_cons in Hy as [->|Hy]; [lia|].
      rewrite (Forall_forall (fun b => Version x <= Version b)) in Hx. auto.
Qed.

Lemma sort_Sort_ascending (h : History) : ascending (sort_Sort h).
Proof.
  induction h as [|r rest IH]; simpl.
  - constructor.
  - now apply insert_sorted_ascending.
Qed.

Lemma ascending_distinct (h : History) :
  ascending h -> List.NoDup (map Version h) -> strictly_ascending h.
Proof.
  unfold ascending, strictly_ascending.
  induction h as [|x rest IH]; simpl; intros Hs Hnd; [constructor|].
  apply StronglySorted_inv in Hs as [Hrest Hx].
  apply List.NoDup_cons_iff in Hnd as [Hnotin Hnd].
  constructor; [auto|].
  rewrite (Forall_forall (fun b => Version x < Version b)).
  rewrite (Forall_forall (fun b => Version x <= Version b)) in Hx.
  intros y Hy. specialize (Hx y Hy).
  assert (Version x <> Version y); [|lia].
  intros Heq. apply Hnotin. rewrite Heq. apply List.in_map.
  now apply list_elem_of_In.
Qed.

Lemma memoryStore_Load_all (m : gmap string History) (aggregateID : string)
    (fromVersion toVersion : Z) (all : History) :
  m !! aggregateID = Some all ->
  memoryStore.Load m aggregateID fromVersion toVersion = inr all.
Proof. unfold memoryStore.Load. now intros ->. Qed.

Lemma memoryStore_Save_lookup (m : gmap string History)
    (aggregateID id : string) (records : list Record_) :
  fst (memoryStore.Save m aggregateID records) !! id =
    if String.eqb aggregateID id
    then Some (sort_Sort (default [] (m !! aggregateID) ++ records))
    else m !! id.
Proof.
  unfold memoryStore.Save. simpl.
  destruct (String.eqb_spec aggregateID id) as [->|Hne].
  - rewrite lookup_insert_eq. destruct (m !! id) eqn:Hm.
    + now rewrite Hm.
    + now rewrite lookup_insert_eq.
  - rewrite lookup_insert_ne by assumption.
    destruct (m !! aggregateID); [reflexivity|].
    now rewrite lookup_insert_ne.
Qed.

Lemma saveAll_snoc (calls : list (string * list Record_))
    (call : string * list Record_) (m : gmap string History) :
  saveAll (calls ++ [call]) m =
    fst (memoryStore.Save (saveAll calls m) (fst call) (snd call)).
Proof. unfold saveAll. now rewrite foldl_app. Qed.

Lemma saveAll_lookup (calls : list (string * list Record_)) (id : string) :
  if savedTo id calls
  then exists h, saveAll calls memoryStore.newMemoryStore !! id = Some h
                 /\ ascending h /\ Permutation h (savedFor id calls)
  else saveAll calls memoryStore.newMemoryStore !! id = None
       /\ savedFor id calls = [].
Proof.
  induction calls as [|call calls IH] using rev_ind.
  - simpl. split; [apply lookup_empty|reflexivity].
  - unfold savedTo, savedFor in *.
    rewrite existsb_app, flat_map_app, saveAll_snoc, memoryStore_Save_lookup.
    simpl. rewrite app_nil_r, orb_false_r.
    destruct (String.eqb_spec (fst call) id) as [Heq|Hne].
    + rewrite orb_true_r. eexists. split; [reflexivity|].
      split; [apply sort_Sort_ascending|].
      rewrite sort_Sort_Permutation. apply Permutation_app_tail.
      rewrite Heq.
      destruct (existsb _ calls).
      * destruct IH as (h & -> & _ & Hp). exact Hp.
      * destruct IH as [-> ->]. reflexivity.
    + rewrite orb_false_r, app_nil_r. exact IH.
Qed.

(** [Save] keeps every history of the store ascending. *)
Lemma memoryStore_Save_ascending (m : gmap string History)
    (aggregateID : string) (records : list Record_) :
  map_Forall (fun _ h => ascending h) m ->
  map_Forall (fun _ h => ascending h)
             (fst (memoryStore.Save m aggregateID records)).
Proof.
  intros Hm id h. rewrite memoryStore_Save_lookup.
  destruct (String.eqb aggregateID id).
  - intros [= <-]. apply sort_Sort_ascending.
  - apply Hm.
Qed.

(** The store of the failing input of C1: versions 3, 1 and 2 saved under
    one identity. *)
Definition store123 : gmap string History :=
  fst (memoryStore.Save memoryStore.newMemoryStore "123"
         [mkRecord 3 []; mkRecord 1 []; mkRecord 2 []]).

(** C1 (code defect): [memoryStore.Load] computes the records of the range
    and then returns the whole history.  With versions 1, 2 and 3 stored,
    the range from 2 with no upper bound selects versions 2 and 3, and the
    range from 1 to 2 selects versions 1 and 2; [Load] answers all three
    records both times. *)
Theorem memoryStore_Load_returns_unfiltered :
  memoryStore.Load store123 "123" 2 0
    = inr [mkRecord 1 []; mkRecord 2 []; mkRecord 3 []]
  /\ List.filter (memoryStore.in_range 2 0)
       [mkRecord 1 []; mkRecord 2 []; mkRecord 3 []]
     = [mkRecord 2 []; mkRecord 3 []]
  /\ memoryStore.Load store123 "123" 1 2
    = inr [mkRecord 1 []; mkRecord 2 []; mkRecord 3 []]
  /\ List.filter (memoryStore.in_range 1 2)
       [mkRecord 1 []; mkRecord 2 []; mkRecord 3 []]
     = [mkRecord 1 []; mkRecord 2 []].
Proof. repeat split; vm_compute; reflexivity. Qed.

(** C7: after any run of [Save] calls on a fresh store, in any order, in
    which the records saved under an identity carry distinct versions, the
    history stored under that identity holds exactly those records in
    strictly ascending order of version, and [Load] returns it, whatever
    the range.  Every prefix of the run is such a run, so this holds after
    each [Save]. *)
Theorem memoryStore_Save_keeps_history_sorted
    (calls : list (string * list Record_)) (aggregateID : string)
    (fromVersion toVersion : Z) :
  savedTo aggregateID calls = true ->
  List.NoDup (map Version (savedFor aggregateID calls)) ->
  exists h : History,
    saveAll calls memoryStore.newMemoryStore !! aggregateID = Some h
    /\ memoryStore.Load (saveAll calls memoryStore.newMemoryStore)
         aggregateID fromVersion toVersion = inr h
    /\ Permutation h (savedFor aggregateID calls)
    /\ strictly_ascending h.
Proof.
  intros Hsaved Hnd.
  pose proof (saveAll_lookup calls aggregateID) as Hl.
  rewrite Hsaved in Hl. destruct Hl as (h & Hh & Hasc & Hperm).
  exists h. split; [exact Hh|].
  split; [now apply memoryStore_Load_all|].
  split; [exact Hperm|].
  apply ascending_distinct; [exact Hasc|].
  eapply Permutation_NoDup; [|exact Hnd].
  apply Permutation_map. now symmetry.
Qed.

Lemma memoryStore_Save_keeps_history_sorted_witness :
  exists h : History,
    saveAll [("123", [mkRecord 3 []]); ("9", [mkRecord 1 []]);
             ("123", [mkRecord 2 []; mkRecord 1 []])]
            memoryStore.newMemoryStore !! "123" = Some h
    /\ memoryStore.Load
         (saveAll [("123", [mkRecord 3 []]); ("9", [mkRecord 1 []]);
                   ("123", [mkRecord 2 []; mkRecord 1 []])]
                  memoryStore.newMemoryStore) "123" 0 0 = inr h
    /\ Permutation h
         (savedFor "123"
            [("123", [mkRecord 3 []]); ("9", [mkRecord 1 []]);
             ("123", [mkRecord 2 []; mkRecord 1 []])])
    /\ strictly_ascending h.
Proof.
  apply (memoryStore_Save_keeps_history_sorted
           [("123", [mkRecord 3 []]); ("9", [mkRecord 1 []]);
            ("123", [mkRecord 2 []; mkRecord 1 []])] "123" 0 0).
  - reflexivity.
  - simpl. repeat constructor; simpl; intuition discriminate.
Defined.

(** ** Repositories over the test aggregate *)
Module Repositories.
Import Fixture.

Definition testSerializer : Serializer TestEvent :=
  NewJSONSerializer testCodec
    [EntityCreated (mkModel "" 0 0); EntityNameSet (mkModel "" 0 0) "";
     EntitySetName (mkModel "" 0 0) ""].

(** A serializer that knows [EntityCreated] only, as in [TestApply]. *)
Definition createdSerializer : Serializer TestEvent :=
  NewJSONSerializer testCodec [EntityCreated (mkModel "" 0 0)].

(** The default repository: the in-memory store. *)
Definition memoryRepository (observers : list nat)
    : @Repository (gmap string History) Entity TestEvent :=
  mkRepository (memoryStore_Store Entity TestEvent) testSerializer observers.

(** The in-memory store with a [SaveAggregate] of the deprecated
    [StoreAggregate] signature. *)
Definition storeAggregateStore : Store (gmap string History) Entity TestEvent :=
  mkStore (gmap string History) Entity TestEvent
    memoryStore.Save
    (fun m aggregateID fromVersion toVersion =>
       (m, memoryStore.Load m aggregateID fromVersion toVersion))
    (StoreAggregate_SaveAggregate
       (fun m aggregateID aggregate records =>
          memoryStore.Save m aggregateID records)).

(** The in-memory store with a [SaveAggregate] of the [AggregateSaver]
    signature. *)
Definition aggregateSaverStore : Store (gmap string History) Entity TestEvent :=
  mkStore (gmap string History) Entity TestEvent
    memoryStore.Save
    (fun m aggregateID fromVersion toVersion =>
       (m, memoryStore.Load m aggregateID fromVersion toVersion))
    (AggregateSaver_SaveAggregate
       (fun m input =>
          memoryStore.Save m (input_AggregateID _ _ input)
                           (input_Records _ _ input))).

Definition storeAggregateRepository (observers : list nat)
    : @Repository (gmap string History) Entity TestEvent :=
  mkRepository storeAggregateStore testSerializer observers.

Definition aggregateSaverRepository (observers : list nat)
    : @Repository (gmap string History) Entity TestEvent :=
  mkRepository aggregateSaverStore testSerializer observers.

(** The store after [Save] of the given events through the repository. *)
Definition storeAfterSave (events : list TestEvent) : gmap string History :=
  snd (fst (Repository_Save (memoryRepository []) events
              memoryStore.newMemoryStore)).

End Repositories.


(** ** The Repository *)

(** The three parts of what a Repository method yields. *)
Definition returned {X S T : Type} (x : X * S * T) : X := fst (fst x).
Definition final {X S T : Type} (x : X * S * T) : S := snd (fst x).
Definition effects {X S T : Type} (x : X * S * T) : T := snd x.

(** [n] layers of [xerrors.Errorf] with [": %w"] around an error. *)
Definition wrapAll (msgs : list string) (err : error) : error :=
  foldr WrapError err msgs.

Section RepositoryProperties.

Context {S A E C : Type}.
Context `{Event E} `{Command C} `{Aggregate A E C}.

Abbreviation Repo := (@Repository S A E).

(** What [Load] hands to the rest of [Apply]: its aggregate, or the fresh
    one when it failed, and its version. *)
Definition loadForApply (r : Repo) (aggregateID : string) (s : S)
    : (option A * Z) * S * list (Effect A E) :=
  let '(aggregate, version, err, s1, t1) := Repository_Load r aggregateID s in
  (match err with
   | Some _ => Some (newAggregate r)
   | None => aggregate
   end, version, s1, t1).

(** The events the command handler generates in an [Apply] call, when the
    call gets as far as a handler that accepts the command. *)
Definition generatedEvents (r : Repo) (command : C) (s : S)
    : option (list E) :=
  match returned (loadForApply r (CommandAggregateID command) s),
        asCommandHandler with
  | (Some aggregate, _), Some h =>
      match snd (h aggregate command) with
      | inr events => Some events
      | inl _ => None
      end
  | _, _ => None
  end.

Lemma Repository_Load_eq (r : Repo) (aggregateID : string) (s : S) :
  Repository_Load r aggregateID s =
    (match snd (Store_Load (store r) s aggregateID 0 0) with
     | inl err => (None, 0, Some err)
     | inr history =>
         if (length history =? 0)%nat
         then (None, 0,
               Some (WrapError
                       ("unable to load " +:+ TypeName +:+ ", "
                          +:+ aggregateID)
                       (ErrorType errAggregateNotFound)))
         else replay r history (newAggregate r) 0
     end,
     fst (Store_Load (store r) s aggregateID 0 0),
     [CallLoad aggregateID 0 0
        (match snd (Store_Load (store r) s aggregateID 0 0) with
         | inl err => Some err
         | inr _ => None
         end)]).
Proof.
  unfold Repository_Load, bind, store_Load, ret.
  destruct (Store_Load (store r) s aggregateID 0 0) as [s1 [err|history]];
    simpl; [reflexivity|].
  destruct (length history =? 0)%nat; reflexivity.
Qed.

Lemma replay_error (r : Repo) (history : History) (aggregate : A)
    (version : Z) (res : option A) (v : Z) (err : error) :
  replay r history aggregate version = (res, v, Some err) ->
  res = None /\ v = 0.
Proof.
  revert aggregate version.
  induction history as [|record rest IH]; simpl; intros aggregate version.
  - discriminate.
  - destruct (UnmarshalEvent (serializer r) record) as [e|event].
    + now intros [= <- <- _].
    + destruct (On aggregate event) as [aggregate1 [e|]].
      * now intros [= <- <- _].
      * apply IH.
Qed.

Lemma replay_ok (r : Repo) (history : History) (aggregate : A)
    (version : Z) (res : option A) (v : Z) :
  replay r history aggregate version = (res, v, None) ->
  is_Some res
  /\ match last history with
     | None => v = version
     | Some record =>
         exists event, UnmarshalEvent (serializer r) record = inr event
                       /\ v = EventVersion event
     end.
Proof.
  revert aggregate version.
  induction history as [|record rest IH]; simpl; intros aggregate version.
  - intros [= <- <-]. split; [eauto|reflexivity].
  - destruct (UnmarshalEvent (serializer r) record) as [e|event] eqn:Hu;
      [discriminate|].
    destruct (On aggregate event) as [aggregate1 [e|]]; [discriminate|].
    intros Hr. destruct (IH _ _ Hr) as [Hsome Hlast]. split; [exact Hsome|].
    rewrite last_cons. destruct (last rest) as [record1|].
    + exact Hlast.
    + exists event. now split.
Qed.

Lemma Repository_Load_error (r : Repo) (aggregateID : string) (s : S)
    (res : option A) (v : Z) (err : error) :
  returned (Repository_Load r aggregateID s) = (res, v, Some err) ->
  res = None /\ v = 0.
Proof.
  rewrite Repository_Load_eq. unfold returned. simpl.
  destruct (snd (Store_Load (store r) s aggregateID 0 0)) as [e|history].
  - now intros [= <- <- _].
  - destruct (length history =? 0)%nat.
    + now intros [= <- <- _].
    + apply replay_error.
Qed.

Lemma Repository_Apply_eq (r : Repo) (command : C) (s : S) :
  CommandAggregateID command <> "" ->
  Repository_Apply r (Some command) s =
    (let '(aggregate, version, s1, t1) :=
       loadForApply r (CommandAggregateID command) s in
     let '(res, s2, t2) :=
       applyCommand r command (CommandAggregateID command) aggregate
                    version s1 in
     (res, s2, t1 ++ t2)).
Proof.
  intros Hid. unfold Repository_Apply, loadForApply, bind.
  apply String.eqb_neq in Hid. rewrite Hid.
  destruct (Repository_Load r (CommandAggregateID command) s)
    as [[[[aggregate version] err] s1] t1].
  reflexivity.
Qed.

(** The observer calls of the publishing loop: every event, in generation
    order, to every observer, in registration order. *)
Definition published (r : Repo) (events : list E) : list (Effect A E) :=
  flat_map (fun event => map (fun observer => CallObserver observer event)
                             (observers r)) events.

Definition noObserver (t : list (Effect A E)) : bool :=
  forallb (fun x => negb (isObserver x)) t.

Definition noWrite (t : list (Effect A E)) : bool :=
  forallb (fun x => negb (isWrite x)) t.

(** The Store has no history for the identity: it answers with a not-found
    error or with an empty record list. *)
Definition foundNothing (r : Repo) (aggregateID : string) (s : S) : Prop :=
  match snd (Store_Load (store r) s aggregateID 0 0) with
  | inl err => IsNotFoundError (Some err) = true
  | inr history => history = []
  end.

Lemma notify_eq (os : list nat) (event : E) (s : S) :
  @notify S A E os event s
    = (tt, s, map (fun o => CallObserver o event) os).
Proof.
  induction os as [|o rest IH]; simpl; [reflexivity|].
  unfold bind, observer_call. now rewrite IH.
Qed.

Lemma publish_eq (r : Repo) (events : list E) (s : S) :
  publish r events s = (tt, s, published r events).
Proof.
  induction events as [|event rest IH]; simpl; [reflexivity|].
  unfold bind. now rewrite notify_eq, IH.
Qed.

Lemma published_isObserver (r : Repo) (events : list E) :
  forallb isObserver (published r events) = true.
Proof.
  unfold published. induction events as [|event rest IH]; simpl;
    [reflexivity|].
  rewrite forallb_app, IH, andb_true_r. clear IH.
  generalize (observers r). intros os.
  induction os as [|o os IHo]; simpl; [reflexivity|exact IHo].
Qed.

Lemma IsNotFoundError_wrapAll (msgs : list string) (err : error) :
  IsNotFoundError (Some (wrapAll msgs err)) = IsNotFoundError (Some err).
Proof. induction msgs as [|msg rest IH]; simpl; [reflexivity|exact IH]. Qed.

(** The persistence step makes at most one call, a write; when it reports
    success for a non-empty batch, the Store accepted that write. *)
Lemma persist_shape (r : Repo) (aggregateID : string) (aggregate : A)
    (events : list E) (records : list Record_) (s : S) :
  makeRecords r events = inr records ->
  (effects (persist r aggregateID aggregate events records s) = []
   /\ (returned (persist r aggregateID aggregate events records s) = None ->
       events = []
       /\ forall f, Store_SaveAggregate (store r)
                    <> StoreAggregate_SaveAggregate f))
  \/ (exists w,
        effects (persist r aggregateID aggregate events records s) = [w]
        /\ isWrite w = true
        /\ (returned (persist r aggregateID aggregate events records s) = None
            -> isPersisted w = true)).
Proof.
  intros Hrec. unfold persist.
  assert (forall s,
    (effects (Repository_Save r events s) = []
     /\ (returned (Repository_Save r events s) = None -> events = []))
    \/ (exists w, effects (Repository_Save r events s) = [w]
                  /\ isWrite w = true
                  /\ (returned (Repository_Save r events s) = None
                      -> isPersisted w = true))) as Hsave.
  { intros s0. unfold Repository_Save.
    destruct events as [|first rest]; [left; now split|].
    rewrite Hrec. right. unfold store_Save, effects, returned.
    destruct (Store_Save (store r) s0 (AggregateID first) records)
      as [s1 err]; simpl.
    eexists. split; [reflexivity|]. split; [reflexivity|].
    now intros ->. }
  destruct (Store_SaveAggregate (store r)) as [|f|f] eqn:Hcap.
  - destruct (Hsave s) as [[He Hn]|Hw]; [left|right; exact Hw].
    split; [exact He|]. intros Hret. split; [auto|]. discriminate.
  - destruct (foldEvents aggregateID aggregate events) as [aggregate1 [e|]].
    + left. split; [reflexivity|]. discriminate.
    + right. unfold store_SaveAggregate, effects, returned.
      destruct (f s aggregateID aggregate1 records) as [s1 err]; simpl.
      eexists. split; [reflexivity|]. split; [reflexivity|].
      now intros ->.
  - destruct (Hsave s) as [[He Hn]|Hw]; [left|right; exact Hw].
    split; [exact He|]. intros Hret. split; [auto|]. discriminate.
Qed.

Lemma isWrite_not_isObserver (w : Effect A E) :
  isWrite w = true -> isObserver w = false.
Proof. now destruct w. Qed.

(** [Apply] after [Load]: either it fails, with version 0 and no observer
    called, or the handler generated events, the persistence step made no
    call (nothing to save) or one write that the Store accepted, and the
    events were published after it. *)
Lemma applyCommand_shape (r : Repo) (command : C) (aggregateID : string)
    (aggregate : option A) (version : Z) (s : S) :
  (exists err,
     returned (applyCommand r command aggregateID aggregate version s)
       = (0, Some err)
     /\ noObserver
          (effects (applyCommand r command aggregateID aggregate version s))
        = true)
  \/ (exists a h events tw,
        aggregate = Some a /\ asCommandHandler = Some h
        /\ snd (h a command) = inr events
        /\ returned (applyCommand r command aggregateID aggregate version s)
           = (match last events with
              | Some event => EventVersion event
              | None => version
              end, None)
        /\ effects (applyCommand r command aggregateID aggregate version s)
           = tw ++ published r events
        /\ ((tw = [] /\ events = [])
            \/ exists w, tw = [w] /\ isPersisted w = true)).
Proof.
  unfold applyCommand.
  destruct aggregate as [a|]; [|left; eexists; now split].
  destruct asCommandHandler as [h|] eqn:Hh; [|left; eexists; now split].
  destruct (h a command) as [a1 [err|events]] eqn:Hcall;
    [left; eexists; now split|].
  destruct (makeRecords r events) as [err|records] eqn:Hrec;
    [left; eexists; now split|].
  pose proof (persist_shape r aggregateID a1 events records s Hrec) as Hp.
  unfold bind.
  destruct (persist r aggregateID a1 events records s) as [[perr s1] tw].
  unfold effects, returned in Hp. simpl in Hp.
  destruct perr as [err|].
  - left. exists err. unfold ret, returned, effects. simpl.
    split; [reflexivity|]. rewrite app_nil_r.
    destruct Hp as [[-> _]|(w & -> & Hw & _)]; [reflexivity|].
    unfold noObserver. simpl. now rewrite (isWrite_not_isObserver w Hw).
  - right. exists a, h, events, tw. rewrite publish_eq.
    unfold ret, returned, effects. simpl. rewrite app_nil_r, Hcall.
    repeat split; try reflexivity.
    destruct Hp as [[-> Hn]|(w & -> & _ & Hok)].
    + left. split; [reflexivity|]. now apply Hn.
    + right. exists w. split; [reflexivity|]. now apply Hok.
Qed.

Lemma Repository_Load_effects (r : Repo) (aggregateID : string) (s : S) :
  exists err,
    effects (Repository_Load r aggregateID s)
      = [CallLoad aggregateID 0 0 err].
Proof. rewrite Repository_Load_eq. eexists. reflexivity. Qed.

Lemma loadForApply_parts (r : Repo) (aggregateID : string) (s : S) :
  returned (loadForApply r aggregateID s)
    = (match snd (returned (Repository_Load r aggregateID s)) with
       | Some _ => Some (newAggregate r)
       | None => fst (fst (returned (Repository_Load r aggregateID s)))
       end,
       snd (fst (returned (Repository_Load r aggregateID s))))
  /\ final (loadForApply r aggregateID s)
     = final (Repository_Load r aggregateID s)
  /\ effects (loadForApply r aggregateID s)
     = effects (Repository_Load r aggregateID s).
Proof.
  unfold loadForApply.
  destruct (Repository_Load r aggregateID s)
    as [[[[aggregate version] err] s1] t1].
  now repeat split.
Qed.

Lemma Repository_Apply_parts (r : Repo) (command : C) (s : S) :
  CommandAggregateID command <> "" ->
  returned (Repository_Apply r (Some command) s)
    = returned (applyCommand r command (CommandAggregateID command)
                  (fst (returned (loadForApply r (CommandAggregateID command) s)))
                  (snd (returned (loadForApply r (CommandAggregateID command) s)))
                  (final (loadForApply r (CommandAggregateID command) s)))
  /\ effects (Repository_Apply r (Some command) s)
     = effects (loadForApply r (CommandAggregateID command) s)
       ++ effects (applyCommand r command (CommandAggregateID command)
                  (fst (returned (loadForApply r (CommandAggregateID command) s)))
                  (snd (returned (loadForApply r (CommandAggregateID command) s)))
                  (final (loadForApply r (CommandAggregateID command) s))).
Proof.
  intros Hid. rewrite (Repository_Apply_eq r command s Hid).
  destruct (loadForApply r (CommandAggregateID command) s)
    as [[[aggregate version] s1] t1].
  unfold returned, final, effects. simpl.
  destruct (applyCommand r command (CommandAggregateID command) aggregate
              version s1) as [[res s2] t2].
  now split.
Qed.

(** The failures of [Apply] before [Load]: no effect at all. *)
Lemma Repository_Apply_rejected (r : Repo) (command : option C) (s : S) :
  match command with
  | None => True
  | Some command => CommandAggregateID command = ""
  end ->
  exists err, Repository_Apply r command s = (0, Some err, s, []).
Proof.
  destruct command as [command|]; simpl.
  - intros ->. rewrite String.eqb_refl. eexists. reflexivity.
  - intros _. eexists. reflexivity.
Qed.

(** C10: an [Apply] call that returns an error returns version 0 and has
    called no observer; and when an [Apply] call does call observers, it
    returns no error and each of these calls comes after a write that the
    Store accepted, nothing but observer calls following that write. *)
Theorem Repository_Apply_error_calls_no_observer (r : Repo)
    (command : option C) (s : S) :
  (forall (version : Z) (err : error),
     returned (Repository_Apply r command s) = (version, Some err) ->
     version = 0
     /\ noObserver (effects (Repository_Apply r command s)) = true)
  /\ (noObserver (effects (Repository_Apply r command s)) = false ->
      snd (returned (Repository_Apply r command s)) = None
      /\ exists t1 w t2,
           effects (Repository_Apply r command s) = t1 ++ w :: t2
           /\ noObserver t1 = true
           /\ isPersisted w = true
           /\ forallb isObserver t2 = true).
Proof.
  assert (match command with
          | None => True
          | Some command => CommandAggregateID command = ""
          end
          \/ exists c, command = Some c /\ CommandAggregateID c <> "")
    as [Hrej|(c & -> & Hid)].
  { destruct command as [c|]; [|now left].
    destruct (String.eqb_spec (CommandAggregateID c) "");
      [now left|right; eauto]. }
  - destruct (Repository_Apply_rejected r command s Hrej) as [e ->].
    unfold returned, effects. simpl. split.
    + now intros version err [= <- _].
    + discriminate.
  - destruct (Repository_Apply_parts r c s Hid) as [-> ->].
    destruct (loadForApply_parts r (CommandAggregateID c) s)
      as (_ & _ & ->).
    destruct (Repository_Load_effects r (CommandAggregateID c) s)
      as [lerr ->].
    destruct (applyCommand_shape r c (CommandAggregateID c)
                (fst (returned (loadForApply r (CommandAggregateID c) s)))
                (snd (returned (loadForApply r (CommandAggregateID c) s)))
                (final (loadForApply r (CommandAggregateID c) s)))
      as [(err & -> & Hno)|(a & h & events & tw & _ & _ & _ & -> & -> & Htw)].
    + split.
      * intros version err0 [= <- _]. split; [reflexivity|].
        unfold noObserver in *. rewrite forallb_app. now rewrite Hno.
      * unfold noObserver in *. rewrite forallb_app, Hno. discriminate.
    + split; [discriminate|].
      intros Hobs. split; [reflexivity|].
      destruct Htw as [[-> ->]|(w & -> & Hw)].
      * discriminate.
      * exists [CallLoad (CommandAggregateID c) 0 0 lerr], w,
               (published r events).
        repeat split; [exact Hw|apply published_isObserver].
Qed.

(** C5: when the Store has no history for the identity, answering with a
    not-found error or with an empty record list, [Repository.Load] fails
    with an error that [IsNotFoundError] accepts, and the error stays
    accepted under any number of further wrapping layers. *)
Theorem Repository_Load_not_found (r : Repo) (aggregateID : string) (s : S) :
  foundNothing r aggregateID s ->
  exists err,
    returned (Repository_Load r aggregateID s) = (None, 0, Some err)
    /\ IsNotFoundError (Some err) = true
    /\ forall msgs, IsNotFoundError (Some (wrapAll msgs err)) = true.
Proof.
  unfold foundNothing. intros Hnone. rewrite Repository_Load_eq.
  unfold returned. cbn [fst snd].
  destruct (snd (Store_Load (store r) s aggregateID 0 0)) as [err|history].
  - exists err. split; [reflexivity|]. split; [exact Hnone|].
    intros msgs. now rewrite IsNotFoundError_wrapAll.
  - subst history. cbn [length Nat.eqb]. eexists. split; [reflexivity|].
    split; [reflexivity|].
    intros msgs. now rewrite IsNotFoundError_wrapAll.
Qed.

(** The claim C2 makes of one [Apply] call: a [Load] error that is not a
    not-found error comes back from [Apply]. *)
Definition propagatesLoadError (r : Repo) (command : C) (s : S) : Prop :=
  forall (res : option A) (v : Z) (err : error),
    returned (Repository_Load r (CommandAggregateID command) s)
      = (res, v, Some err) ->
    IsNotFoundError (Some err) = false ->
    snd (returned (Repository_Apply r (Some command) s)) = Some err.

(** C2, amended: whatever error [Load] returns inside [Apply], not-found
    or not, [Apply] drops it and carries on with a fresh zero-value
    aggregate at version 0; what it returns and does from there on is what
    the rest of [Apply] returns and does on that aggregate. *)
Theorem Repository_Apply_swallows_every_Load_error (r : Repo) (command : C)
    (s : S) (res : option A) (v : Z) (err : error) :
  CommandAggregateID command <> "" ->
  returned (Repository_Load r (CommandAggregateID command) s)
    = (res, v, Some err) ->
  returned (Repository_Apply r (Some command) s)
    = returned (applyCommand r command (CommandAggregateID command)
                  (Some (newAggregate r)) 0
                  (final (Repository_Load r (CommandAggregateID command) s)))
  /\ effects (Repository_Apply r (Some command) s)
     = effects (Repository_Load r (CommandAggregateID command) s)
       ++ effects (applyCommand r command (CommandAggregateID command)
                     (Some (newAggregate r)) 0
                     (final (Repository_Load r (CommandAggregateID command) s))).
Proof.
  intros Hid Hload.
  destruct (Repository_Load_error r _ s res v err Hload) as [-> ->].
  destruct (Repository_Apply_parts r command s Hid) as [-> ->].
  destruct (loadForApply_parts r (CommandAggregateID command) s)
    as (-> & -> & ->).
  rewrite Hload. simpl. now split.
Qed.

(** The claim C6 makes of one [Apply] call that generated no event: it
    returns 0 only when [Load] found nothing. *)
Definition zeroOnlyWhenNothingFound (r : Repo) (command : C) (s : S) : Prop :=
  generatedEvents r command s = Some [] ->
  returned (Repository_Apply r (Some command) s) = (0, None) ->
  foundNothing r (CommandAggregateID command) s.

(** C6, amended: a successful [Apply] returns the version of the last
    generated event when the handler generated events; otherwise it
    returns the version [Load] returned, which is 0 whenever [Load] failed,
    for whatever reason, and is the version of the last replayed event,
    itself possibly 0, when [Load] succeeded. *)
Theorem Repository_Apply_version (r : Repo) (command : C) (s : S)
    (version : Z) :
  returned (Repository_Apply r (Some command) s) = (version, None) ->
  exists events,
    generatedEvents r command s = Some events
    /\ match last events with
       | Some event => version = EventVersion event
       | None =>
           version
             = snd (fst (returned
                           (Repository_Load r (CommandAggregateID command) s)))
           /\ match snd (returned
                           (Repository_Load r (CommandAggregateID command) s))
              with
              | Some _ => version = 0
              | None =>
                  exists history record event,
                    snd (Store_Load (store r) s
                           (CommandAggregateID command) 0 0) = inr history
                    /\ last history = Some record
                    /\ UnmarshalEvent (serializer r) record = inr event
                    /\ version = EventVersion event
              end
       end.
Proof.
  intros Hret.
  assert (CommandAggregateID command <> "") as Hid.
  { intros Hblank.
    destruct (Repository_Apply_rejected r (Some command) s Hblank) as [e He].
    rewrite He in Hret. discriminate. }
  destruct (Repository_Apply_parts r command s Hid) as [Hr _].
  rewrite Hr in Hret. clear Hr.
  unfold generatedEvents.
  destruct (applyCommand_shape r command (CommandAggregateID command)
              (fst (returned (loadForApply r (CommandAggregateID command) s)))
              (snd (returned (loadForApply r (CommandAggregateID command) s)))
              (final (loadForApply r (CommandAggregateID command) s)))
    as [(err & He & _)|(a & h & events & tw & Ha & Hh & Hev & Hv & _)].
  { rewrite He in Hret. discriminate. }
  rewrite Hv in Hret. injection Hret as Hversion.
  exists events.
  destruct (returned (loadForApply r (CommandAggregateID command) s))
    as [aggregate loaded] eqn:Hl.
  simpl in Ha, Hversion. subst aggregate. rewrite Hh, Hev.
  split; [reflexivity|].
  destruct (last events) as [event|]; [now symmetry|].
  subst loaded.
  destruct (loadForApply_parts r (CommandAggregateID command) s)
    as (Hparts & _ & _).
  rewrite Hl in Hparts. injection Hparts as _ Hloaded.
  split; [exact Hloaded|].
  destruct (returned (Repository_Load r (CommandAggregateID command) s))
    as [[res v] lerr] eqn:HL.
  simpl in Hloaded |- *. subst v.
  destruct lerr as [lerr|].
  - now destruct (Repository_Load_error r _ s res version lerr HL).
  - rewrite Repository_Load_eq in HL. unfold returned in HL. simpl in HL.
    destruct (snd (Store_Load (store r) s (CommandAggregateID command) 0 0))
      as [e|history]; [discriminate|].
    destruct (length history =? 0)%nat eqn:Hlen; [discriminate|].
    apply replay_ok in HL as [_ Hlast].
    destruct (last history) as [record|] eqn:Hlr.
    + destruct Hlast as (event & Hu & Hv').
      exists history, record, event. now repeat split.
    + apply last_None in Hlr. subst history. discriminate.
Qed.

Lemma Repository_Apply_final (r : Repo) (command : C) (s : S) :
  CommandAggregateID command <> "" ->
  final (Repository_Apply r (Some command) s)
    = final (applyCommand r command (CommandAggregateID command)
               (fst (returned (loadForApply r (CommandAggregateID command) s)))
               (snd (returned (loadForApply r (CommandAggregateID command) s)))
               (final (loadForApply r (CommandAggregateID command) s))).
Proof.
  intros Hid. rewrite (Repository_Apply_eq r command s Hid).
  destruct (loadForApply r (CommandAggregateID command) s)
    as [[[aggregate version] s1] t1].
  unfold returned, final. simpl.
  now destruct (applyCommand r command (CommandAggregateID command) aggregate
                  version s1) as [[res s2] t2].
Qed.

(** The claim C8 makes of one [Apply] call that generated no event: none
    of its effects is a write to the Store. *)
Definition noEventsNoWrite (r : Repo) (command : C) (s : S) : Prop :=
  generatedEvents r command s = Some [] ->
  noWrite (effects (Repository_Apply r (Some command) s)) = true.

(** C8, amended: [Repository.Save] of an empty event list returns success,
    leaves the Store as it is and calls nothing.  An [Apply] call whose
    handler generates no event calls the Store for [Load] only, on a Store
    without the [StoreAggregate] method; on a Store with it, [Apply] still
    calls [SaveAggregate], once and with an empty record list. *)
Theorem Repository_Save_nothing_Apply_no_events (r : Repo) :
  (forall s : S, Repository_Save r [] s = (None, s, []))
  /\ (forall (command : C) (s : S),
        CommandAggregateID command <> "" ->
        generatedEvents r command s = Some [] ->
        match Store_SaveAggregate (store r) with
        | StoreAggregate_SaveAggregate f =>
            exists aggregate err,
              effects (Repository_Apply r (Some command) s)
                = effects (Repository_Load r (CommandAggregateID command) s)
                  ++ [CallSaveAggregate (CommandAggregateID command)
                        aggregate [] err]
        | _ =>
            effects (Repository_Apply r (Some command) s)
              = effects (Repository_Load r (CommandAggregateID command) s)
            /\ final (Repository_Apply r (Some command) s)
               = final (Repository_Load r (CommandAggregateID command) s)
            /\ noWrite (effects (Repository_Apply r (Some command) s)) = true
        end).
Proof.
  split; [reflexivity|].
  intros command s Hid Hgen.
  destruct (Repository_Apply_parts r command s Hid) as [_ ->].
  rewrite (Repository_Apply_final r command s Hid).
  destruct (loadForApply_parts r (CommandAggregateID command) s)
    as (_ & Hfinal & Heff).
  rewrite Heff, Hfinal. clear Heff Hfinal.
  unfold generatedEvents in Hgen.
  destruct (returned (loadForApply r (CommandAggregateID command) s))
    as [[a|] version]; [|discriminate].
  unfold applyCommand. cbn [fst snd].
  destruct asCommandHandler as [h|]; [|discriminate].
  destruct (h a command) as [a1 [err|events]]; [discriminate|].
  injection Hgen as ->. cbn [makeRecords]. unfold bind, persist.
  destruct (Repository_Load_effects r (CommandAggregateID command) s)
    as [lerr ->].
  destruct (Store_SaveAggregate (store r)) as [|f|f].
  - unfold effects, final. simpl. now repeat split.
  - cbn [foldEvents]. unfold store_SaveAggregate.
    destruct (f (final (Repository_Load r (CommandAggregateID command) s))
                (CommandAggregateID command) a1 []) as [s1 err].
    exists a1, err. destruct err; reflexivity.
  - unfold effects, final. simpl. now repeat split.
Qed.

End RepositoryProperties.

(** ** The JSON serializer *)

Section JSONSerializerProperties.

Context {E T : Type} `{Event E}.
Variable codec : Codec E T.

Lemma newRegistry_snoc (examples : list E) (example : E) :
  newRegistry codec (examples ++ [example])
    = Bind codec (newRegistry codec examples) example.
Proof. unfold newRegistry. now rewrite foldl_app. Qed.

(** A type is registered when some example carries its name and every
    example of that name has that type. *)
Lemma registered_by_example (examples : list E) (event : E) :
  (exists example, example ∈ examples
                   /\ EventType example = EventType event) ->
  (forall example, example ∈ examples ->
                   EventType example = EventType event ->
                   TypeOf codec example = TypeOf codec event) ->
  registered codec examples event.
Proof.
  unfold registered.
  induction examples as [|example examples IH] using rev_ind.
  - intros (x & Hx & _). now apply elem_of_nil in Hx.
  - intros (x & Hx & Hname) Htypes.
    rewrite newRegistry_snoc. unfold Bind.
    destruct (decide (EventType example = EventType event)) as [Heq|Hne].
    + rewrite Heq, lookup_insert_eq. f_equal.
      apply Htypes; [|exact Heq]. apply elem_of_app. right.
      now apply list_elem_of_singleton.
    + rewrite lookup_insert_ne by exact Hne.
      apply IH.
      * apply elem_of_app in Hx as [Hx|Hx]; [eauto|].
        apply list_elem_of_singleton in Hx. now subst x.
      * intros y Hy. apply Htypes. apply elem_of_app. now left.
Qed.

(** C9: for an event whose type is registered with the serializer, what
    [MarshalEvent] produces, [UnmarshalEvent] decodes back into an event
    equal to the original; the record carries the event's version. *)
Theorem JSONSerializer_roundtrip (examples : list E) (event : E)
    (record : Record_) :
  registered codec examples event ->
  MarshalEvent (NewJSONSerializer codec examples) event = inr record ->
  UnmarshalEvent (NewJSONSerializer codec examples) record = inr event
  /\ Version record = EventVersion event.
Proof.
  unfold registered. simpl. unfold JSON_MarshalEvent, JSON_UnmarshalEvent.
  intros Hreg.
  destruct (Marshal codec event) as [data|] eqn:Hdata; [|discriminate].
  destruct (MarshalEnvelope codec (mkJsonEvent (EventType event) data))
    as [encoded|] eqn:Henv; [|discriminate].
  intros [= <-]. simpl.
  rewrite (UnmarshalEnvelope_MarshalEnvelope _ _ codec _ _ Henv). simpl.
  rewrite Hreg.
  rewrite (Unmarshal_Marshal _ _ codec _ _ Hdata).
  now split.
Qed.

End JSONSerializerProperties.

(** ** The claims on the test aggregate *)

Section OnTheTestAggregate.
Import Fixture Repositories.

(** A history the aggregate cannot replay: [Entity.On] has no case for
    [EntitySetName]. *)
Definition unhandledStore : gmap string History :=
  storeAfterSave [EntitySetName (mkModel "123" 1 3) "blah"].

(** A history whose only event carries version 0, as the tests save. *)
Definition versionZeroStore : gmap string History :=
  storeAfterSave [EntityNameSet (mkModel "123" 0 0) "Jones"].

Definition unhandledError : error :=
  WrapError "aggregate was unable to handle event, EntitySetName"
            (ErrorString "UnhandledEvent").

Lemma JSONSerializer_roundtrip_witness :
  exists record,
    MarshalEvent testSerializer (EntitySetName (mkModel "123" 4 0) "blah")
      = inr record
    /\ UnmarshalEvent testSerializer record
       = inr (EntitySetName (mkModel "123" 4 0) "blah")
    /\ Version record
       = EventVersion (EntitySetName (mkModel "123" 4 0) "blah").
Proof.
  unfold testSerializer.
  eexists. split; [vm_compute; reflexivity|].
  apply (JSONSerializer_roundtrip testCodec
           [EntityCreated (mkModel "" 0 0); EntityNameSet (mkModel "" 0 0) "";
            EntitySetName (mkModel "" 0 0) ""]
           (EntitySetName (mkModel "123" 4 0) "blah")).
  - vm_compute. reflexivity.
  - vm_compute. reflexivity.
Defined.

Lemma Repository_Load_not_found_witness :
  exists err,
    returned (Repository_Load (memoryRepository []) "does-not-exist"
                memoryStore.newMemoryStore) = (None, 0, Some err)
    /\ IsNotFoundError (Some err) = true
    /\ forall msgs, IsNotFoundError (Some (wrapAll msgs err)) = true.
Proof.
  apply (Repository_Load_not_found (memoryRepository []) "does-not-exist"
           memoryStore.newMemoryStore).
  vm_compute. reflexivity.
Defined.

(** C2, as stated, fails: the history under "123" cannot be replayed,
    [Load] fails with an error that is not a not-found error, and [Apply]
    of a command that generates nothing returns success. *)
Lemma Repository_Apply_drops_replay_error :
  returned (Repository_Load (memoryRepository []) "123" unhandledStore)
    = (None, 0, Some unhandledError)
  /\ IsNotFoundError (Some unhandledError) = false
  /\ returned (Repository_Apply (memoryRepository []) (Some (Nop "123"))
                 unhandledStore) = (0, None)
  /\ ~ propagatesLoadError (memoryRepository []) (Nop "123") unhandledStore.
Proof.
  assert (returned (Repository_Load (memoryRepository []) "123" unhandledStore)
            = (None, 0, Some unhandledError)) as Hload
    by (vm_compute; reflexivity).
  assert (returned (Repository_Apply (memoryRepository []) (Some (Nop "123"))
                      unhandledStore) = (0, None)) as Happly
    by (vm_compute; reflexivity).
  split; [exact Hload|]. split; [reflexivity|]. split; [exact Happly|].
  intros Hp. specialize (Hp None 0 unhandledError Hload eq_refl).
  rewrite Happly in Hp. discriminate.
Qed.

Lemma Repository_Apply_swallows_every_Load_error_witness :
  returned (Repository_Apply (memoryRepository []) (Some (Nop "123"))
              unhandledStore)
    = returned (applyCommand (memoryRepository []) (Nop "123")
                  (CommandAggregateID (Nop "123"))
                  (Some (newAggregate (memoryRepository []))) 0
                  (final (Repository_Load (memoryRepository [])
                            (CommandAggregateID (Nop "123"))
                            unhandledStore)))
  /\ effects (Repository_Apply (memoryRepository []) (Some (Nop "123"))
                unhandledStore)
     = effects (Repository_Load (memoryRepository [])
                            (CommandAggregateID (Nop "123")) unhandledStore)
       ++ effects (applyCommand (memoryRepository []) (Nop "123")
                  (CommandAggregateID (Nop "123"))
                     (Some (newAggregate (memoryRepository []))) 0
                     (final (Repository_Load (memoryRepository [])
                            (CommandAggregateID (Nop "123"))
                               unhandledStore))).
Proof.
  apply (Repository_Apply_swallows_every_Load_error (memoryRepository [])
           (Nop "123") unhandledStore None 0 unhandledError).
  - discriminate.
  - vm_compute. reflexivity.
Defined.

(** C3 (code defect): [Entity.On] rejects the stored [EntitySetName]
    event; [Load] fails with an error that wraps the aggregate's failure
    and names the event type, and that error is not classified as
    [UnhandledEvent]: the sentinel is nowhere in its chain. *)
Theorem Repository_Load_unhandled_event_unclassified :
  returned (Repository_Load (memoryRepository []) "123" unhandledStore)
    = (None, 0, Some unhandledError)
  /\ Unwrap unhandledError
     = snd (Entity_On zero (EntitySetName (mkModel "123" 1 3) "blah"))
  /\ xerrors_Is (Some unhandledError) errUnhandledEvent = false.
Proof. repeat split; vm_compute; reflexivity. Qed.

(** C4 (code defect): on a Store with the [SaveAggregate] of
    [AggregateSaver], [Apply] does not call it: it stores the records
    through the plain [Save], just as on the Store without the method. *)
Theorem Repository_Apply_ignores_AggregateSaver :
  returned (Repository_Apply (aggregateSaverRepository [])
              (Some (CreateEntity "abc")) memoryStore.newMemoryStore)
    = (1, None)
  /\ map isPlainSave
       (effects (Repository_Apply (aggregateSaverRepository [])
                   (Some (CreateEntity "abc")) memoryStore.newMemoryStore))
     = [false; true]
  /\ effects (Repository_Apply (aggregateSaverRepository [])
                (Some (CreateEntity "abc")) memoryStore.newMemoryStore)
     = effects (Repository_Apply (memoryRepository [])
                  (Some (CreateEntity "abc")) memoryStore.newMemoryStore).
Proof. repeat split; vm_compute; reflexivity. Qed.

(** C6, as stated, fails: the history under "123" holds one event of
    version 0; [Load] finds and replays it, no fresh aggregate is
    substituted, and [Apply] of a command that generates nothing returns
    version 0. *)
Lemma Repository_Apply_zero_with_history :
  snd (returned (Repository_Load (memoryRepository []) "123"
                   versionZeroStore)) = None
  /\ returned (Repository_Apply (memoryRepository []) (Some (Nop "123"))
                 versionZeroStore) = (0, None)
  /\ ~ zeroOnlyWhenNothingFound (memoryRepository []) (Nop "123")
         versionZeroStore.
Proof.
  split; [vm_compute; reflexivity|].
  split; [vm_compute; reflexivity|].
  intros Hz.
  assert (foundNothing (memoryRepository []) "123" versionZeroStore) as Hn.
  { apply Hz; vm_compute; reflexivity. }
  vm_compute in Hn. discriminate.
Qed.

Lemma Repository_Apply_version_witness :
  exists events,
    generatedEvents (memoryRepository []) (CreateEntity "abc")
                    memoryStore.newMemoryStore = Some events
    /\ match last events with
       | Some event => 1 = EventVersion event
       | None =>
           1 = snd (fst (returned
                           (Repository_Load (memoryRepository [])
                              (CommandAggregateID (CreateEntity "abc"))
                              memoryStore.newMemoryStore)))
           /\ match snd (returned
                           (Repository_Load (memoryRepository [])
                              (CommandAggregateID (CreateEntity "abc"))
                              memoryStore.newMemoryStore))
              with
              | Some _ => 1 = 0
              | None =>
                  exists history record event,
                    snd (Store_Load (store (memoryRepository []))
                           memoryStore.newMemoryStore
                           (CommandAggregateID (CreateEntity "abc")) 0 0) = inr history
                    /\ last history = Some record
                    /\ UnmarshalEvent (serializer (memoryRepository []))
                         record = inr event
                    /\ 1 = EventVersion event
              end
       end.
Proof.
  apply (Repository_Apply_version (memoryRepository []) (CreateEntity "abc")
           memoryStore.newMemoryStore 1).
  vm_compute. reflexivity.
Defined.

(** C8, as stated, fails: on a Store with the [StoreAggregate] method,
    [Apply] of a command that generates nothing calls [SaveAggregate]. *)
Lemma Repository_Apply_no_events_calls_SaveAggregate :
  generatedEvents (storeAggregateRepository []) (Nop "abc")
                  memoryStore.newMemoryStore = Some []
  /\ map isWrite
       (effects (Repository_Apply (storeAggregateRepository [])
                   (Some (Nop "abc")) memoryStore.newMemoryStore))
     = [false; true]
  /\ ~ noEventsNoWrite (storeAggregateRepository []) (Nop "abc")
         memoryStore.newMemoryStore.
Proof.
  split; [vm_compute; reflexivity|].
  split; [vm_compute; reflexivity|].
  intros Hn.
  assert (noWrite (effects (Repository_Apply (storeAggregateRepository [])
                     (Some (Nop "abc")) memoryStore.newMemoryStore)) = true)
    as Hw.
  { apply Hn. vm_compute. reflexivity. }
  vm_compute in Hw. discriminate.
Qed.

Lemma Repository_Save_nothing_Apply_no_events_witness :
  effects (Repository_Apply (memoryRepository []) (Some (Nop "abc"))
             memoryStore.newMemoryStore)
    = effects (Repository_Load (memoryRepository [])
                 (CommandAggregateID (Nop "abc"))
                 memoryStore.newMemoryStore)
  /\ final (Repository_Apply (memoryRepository []) (Some (Nop "abc"))
              memoryStore.newMemoryStore)
     = final (Repository_Load (memoryRepository [])
                 (CommandAggregateID (Nop "abc"))
                memoryStore.newMemoryStore)
  /\ noWrite (effects (Repository_Apply (memoryRepository [])
                         (Some (Nop "abc")) memoryStore.newMemoryStore))
     = true.
Proof.
  apply (proj2 (Repository_Save_nothing_Apply_no_events (memoryRepository []))
           (Nop "abc") memoryStore.newMemoryStore).
  - discriminate.
  - vm_compute. reflexivity.
Defined.

Lemma Repository_Apply_error_calls_no_observer_witness :
  (returned (Repository_Apply (memoryRepository [7%nat])
               (Some (CreateEntity "")) memoryStore.newMemoryStore)
     = (0, Some (ErrorString
          "command provided to Repository.Apply may not contain a blank AggregateID"))
   /\ 0 = 0
   /\ noObserver (effects (Repository_Apply (memoryRepository [7%nat])
                             (Some (CreateEntity ""))
                             memoryStore.newMemoryStore)) = true)
  /\ (snd (returned (Repository_Apply (memoryRepository [7%nat])
                       (Some (CreateEntity "abc"))
                       memoryStore.newMemoryStore)) = None
      /\ exists t1 w t2,
           effects (Repository_Apply (memoryRepository [7%nat])
                      (Some (CreateEntity "abc")) memoryStore.newMemoryStore)
             = t1 ++ w :: t2
           /\ noObserver t1 = true
           /\ isPersisted w = true
           /\ forallb isObserver t2 = true).
Proof.
  split.
  - split; [vm_compute; reflexivity|].
    apply (proj1 (Repository_Apply_error_calls_no_observer
                    (memoryRepository [7%nat]) (Some (CreateEntity ""))
                    memoryStore.newMemoryStore) 0
                 (ErrorString
                    "command provided to Repository.Apply may not contain a blank AggregateID")).
    vm_compute. reflexivity.
  - apply (proj2 (Repository_Apply_error_calls_no_observer
                    (memoryRepository [7%nat]) (Some (CreateEntity "abc"))
                    memoryStore.newMemoryStore)).
    vm_compute. reflexivity.
Defined.

End OnTheTestAggregate.

(** * Further properties of the code *)

From stdpp Require Import sorting.

Local Open Scope Z_scope.

(** ** The not-found predicate *)

(** X1: [IsNotFoundError] accepts exactly the sentinel [errAggregateNotFound]
    under zero or more wrapping layers: a nil error, a flat message and any
    other sentinel, wrapped or not, are refused. *)
Theorem IsNotFoundError_iff_wrapped_sentinel (err : option error) :
  IsNotFoundError err = true
  <-> exists msgs,
        err = Some (wrapAll msgs (ErrorType errAggregateNotFound)).
Proof.
  split.
  - destruct err as [err|]; [|discriminate].
    unfold IsNotFoundError. simpl.
    induction err as [e|msg|msg cause IH]; simpl; intros Hin.
    + apply String.eqb_eq in Hin. subst e. now exists [].
    + discriminate.
    + destruct (IH Hin) as [msgs [= ->]]. now exists (msg :: msgs).
  - intros [msgs ->]. now rewrite IsNotFoundError_wrapAll.
Qed.

(** ** [History] as a [sort.Interface] *)

(** X2: [Swap] on two indices of the history exchanges the two records, leaves
    every other position and the length as they are, and so yields a
    permutation; swapping the same two indices again restores the
    history. *)
Theorem History_Swap_exchanges (h : History) (i j : nat) :
  (i < Len h)%nat -> (j < Len h)%nat ->
  Len (Swap h i j) = Len h
  /\ Swap h i j !! i = h !! j
  /\ Swap h i j !! j = h !! i
  /\ (forall k, k <> i -> k <> j -> Swap h i j !! k = h !! k)
  /\ Permutation (Swap h i j) h
  /\ Swap (Swap h i j) i j = h.
Proof.
  unfold Len. intros Hi Hj.
  destruct (lookup_lt_is_Some_2 h i Hi) as [a Ha].
  destruct (lookup_lt_is_Some_2 h j Hj) as [b Hb].
  assert (Swap h i j = <[j:=a]> (<[i:=b]> h)) as Hswap
    by (unfold Swap; now rewrite Ha, Hb).
  assert (Swap h i j !! i = Some b) as Hsi.
  { rewrite Hswap. destruct (decide (i = j)) as [->|Hne].
    - rewrite list_lookup_insert_eq by (rewrite length_insert; lia). congruence.
    - rewrite list_lookup_insert_ne by congruence.
      now rewrite list_lookup_insert_eq. }
  assert (Swap h i j !! j = Some a) as Hsj.
  { rewrite Hswap. rewrite list_lookup_insert_eq; [reflexivity|].
    rewrite length_insert; lia. }
  split; [rewrite Hswap; now rewrite !length_insert|].
  split; [congruence|]. split; [congruence|].
  split.
  { intros k Hki Hkj. rewrite Hswap.
    now rewrite !list_lookup_insert_ne by congruence. }
  split; [rewrite Hswap; now apply Permutation_insert_swap|].
  unfold Swap at 1. rewrite Hsi, Hsj, Hswap.
  apply list_eq. intros k.
  destruct (decide (k = j)) as [->|Hkj].
  - rewrite list_lookup_insert_eq by (rewrite !length_insert; lia). congruence.
  - rewrite list_lookup_insert_ne by congruence.
    destruct (decide (k = i)) as [->|Hki].
    + rewrite list_lookup_insert_eq by (rewrite !length_insert; lia).
      congruence.
    + now rewrite !list_lookup_insert_ne by congruence.
Qed.

Lemma History_Swap_exchanges_witness :
  Len (Swap [mkRecord 3 []; mkRecord 1 []; mkRecord 2 []] 0 2)
    = Len [mkRecord 3 []; mkRecord 1 []; mkRecord 2 []]
  /\ Swap [mkRecord 3 []; mkRecord 1 []; mkRecord 2 []] 0 2 !! 0%nat
     = [mkRecord 3 []; mkRecord 1 []; mkRecord 2 []] !! 2%nat
  /\ Swap [mkRecord 3 []; mkRecord 1 []; mkRecord 2 []] 0 2 !! 2%nat
     = [mkRecord 3 []; mkRecord 1 []; mkRecord 2 []] !! 0%nat
  /\ (forall k, k <> 0%nat -> k <> 2%nat ->
        Swap [mkRecord 3 []; mkRecord 1 []; mkRecord 2 []] 0 2 !! k
        = [mkRecord 3 []; mkRecord 1 []; mkRecord 2 []] !! k)
  /\ Permutation (Swap [mkRecord 3 []; mkRecord 1 []; mkRecord 2 []] 0 2)
                 [mkRecord 3 []; mkRecord 1 []; mkRecord 2 []]
  /\ Swap (Swap [mkRecord 3 []; mkRecord 1 []; mkRecord 2 []] 0 2) 0 2
     = [mkRecord 3 []; mkRecord 1 []; mkRecord 2 []].
Proof.
  apply (History_Swap_exchanges
           [mkRecord 3 []; mkRecord 1 []; mkRecord 2 []] 0 2);
    simpl; lia.
Defined.

(** X3: [Less] is a strict order on the positions of a history, as
    [sort.Interface] asks: no position is less than itself, it is never
    true both ways, it is transitive, and two positions are unordered both
    ways exactly when their records carry the same version. *)
Theorem History_Less_strict_order (h : History) (i j k : nat) :
  (i < Len h)%nat -> (j < Len h)%nat -> (k < Len h)%nat ->
  Less h i i = false
  /\ (Less h i j = true -> Less h j i = false)
  /\ (Less h i j = true -> Less h j k = true -> Less h i k = true)
  /\ (forall a b, h !! i = Some a -> h !! j = Some b ->
        (Less h i j = false /\ Less h j i = false
         <-> Version a = Version b)).
Proof.
  unfold Less. intros _ _ _.
  destruct (h !! i) as [a|], (h !! j) as [b|], (h !! k) as [c|];
    repeat split; try discriminate; try reflexivity; intros;
    simplify_eq;
    repeat match goal with
           | H : _ /\ _ |- _ => destruct H
           | H : (_ <? _) = true |- _ => apply Z.ltb_lt in H
           | H : (_ <? _) = false |- _ => apply Z.ltb_ge in H
           | |- (_ <? _) = true => apply Z.ltb_lt
           | |- (_ <? _) = false => apply Z.ltb_ge
           end; try lia.
Qed.

Lemma History_Less_strict_order_witness :
  Less [mkRecord 3 []; mkRecord 1 []; mkRecord 3 [x01]] 0 0 = false
  /\ (Less [mkRecord 3 []; mkRecord 1 []; mkRecord 3 [x01]] 0 1 = true ->
      Less [mkRecord 3 []; mkRecord 1 []; mkRecord 3 [x01]] 1 0 = false)
  /\ (Less [mkRecord 3 []; mkRecord 1 []; mkRecord 3 [x01]] 0 1 = true ->
      Less [mkRecord 3 []; mkRecord 1 []; mkRecord 3 [x01]] 1 2 = true ->
      Less [mkRecord 3 []; mkRecord 1 []; mkRecord 3 [x01]] 0 2 = true)
  /\ (forall a b,
        [mkRecord 3 []; mkRecord 1 []; mkRecord 3 [x01]] !! 0%nat = Some a ->
        [mkRecord 3 []; mkRecord 1 []; mkRecord 3 [x01]] !! 1%nat = Some b ->
        (Less [mkRecord 3 []; mkRecord 1 []; mkRecord 3 [x01]] 0 1 = false
         /\ Less [mkRecord 3 []; mkRecord 1 []; mkRecord 3 [x01]] 1 0 = false
         <-> Version a = Version b)).
Proof.
  apply (History_Less_strict_order
           [mkRecord 3 []; mkRecord 1 []; mkRecord 3 [x01]] 0 1 2);
    simpl; lia.
Defined.

(** ** More on the in-memory store *)

Lemma strictly_ascending_unique (h1 h2 : History) :
  strictly_ascending h1 -> strictly_ascending h2 ->
  Permutation h1 h2 -> h1 = h2.
Proof.
  unfold strictly_ascending. intros H1 H2 Hp.
  eapply StronglySorted_unique_strong; [|exact H1|exact H2|exact Hp].
  simpl. intros x1 x2 _ _ Ha Hb. lia.
Qed.

Lemma strictly_ascending_NoDup (h : History) :
  strictly_ascending h -> List.NoDup (map Version h).
Proof.
  unfold strictly_ascending.
  induction h as [|x rest IH]; simpl; intros Hs; [constructor|].
  apply StronglySorted_inv in Hs as [Hrest Hx].
  constructor; [|auto].
  rewrite (Forall_forall (fun b => Version x < Version b)) in Hx.
  intros Hin. apply List.in_map_iff in Hin as (y & Hv & Hy).
  apply list_elem_of_In in Hy. specialize (Hx y Hy). lia.
Qed.

Lemma strictly_ascending_ascending (h : History) :
  strictly_ascending h -> ascending h.
Proof.
  unfold strictly_ascending, ascending.
  induction 1 as [|x rest Hrest IH Hx]; constructor; [exact IH|].
  eapply Forall_impl; [exact Hx|]. simpl. intros; lia.
Qed.

(** Sorting a history whose versions already increase strictly changes
    nothing. *)
Lemma sort_Sort_strictly_ascending (h : History) :
  strictly_ascending h -> sort_Sort h = h.
Proof.
  intros Hs. apply strictly_ascending_unique; [|exact Hs|].
  - apply ascending_distinct; [apply sort_Sort_ascending|].
    eapply Permutation_NoDup; [|exact (strictly_ascending_NoDup h Hs)].
    apply Permutation_map. symmetry. apply sort_Sort_Permutation.
  - apply sort_Sort_Permutation.
Qed.

(** X4: One [Save], on any store: it reports no error, the history under the
    identity afterwards is in ascending order of version and holds the
    records that were there together with the new ones, none dropped even
    when versions repeat, and the history of every other identity is as
    before. *)
Theorem memoryStore_Save_appends_and_sorts (m : gmap string History)
    (aggregateID : string) (records : list Record_) :
  snd (memoryStore.Save m aggregateID records) = None
  /\ (exists h,
        fst (memoryStore.Save m aggregateID records) !! aggregateID = Some h
        /\ ascending h
        /\ Permutation h (default [] (m !! aggregateID) ++ records))
  /\ (forall other, other <> aggregateID ->
        fst (memoryStore.Save m aggregateID records) !! other = m !! other).
Proof.
  split; [reflexivity|]. split.
  - eexists. rewrite memoryStore_Save_lookup, String.eqb_refl.
    split; [reflexivity|].
    split; [apply sort_Sort_ascending|apply sort_Sort_Permutation].
  - intros other Hne. rewrite memoryStore_Save_lookup.
    destruct (String.eqb_spec aggregateID other); congruence.
Qed.

(** X5: After any run of [Save] calls on a fresh store, [Load] fails exactly
    for the identities no call named, whatever the range; the failure is
    a not-found error whose text names the identity. *)
Theorem memoryStore_Load_fails_iff_never_saved
    (calls : list (string * list Record_)) (aggregateID : string)
    (fromVersion toVersion : Z) :
  (savedTo aggregateID calls = false
   <-> exists err,
         memoryStore.Load (saveAll calls memoryStore.newMemoryStore)
           aggregateID fromVersion toVersion = inl err)
  /\ (forall err,
        memoryStore.Load (saveAll calls memoryStore.newMemoryStore)
          aggregateID fromVersion toVersion = inl err ->
        IsNotFoundError (Some err) = true
        /\ Error err
           = "no aggregate found with id, " +:+ aggregateID
               +:+ ": AggregateNotFound").
Proof.
  pose proof (saveAll_lookup calls aggregateID) as Hl.
  unfold memoryStore.Load. split.
  - destruct (savedTo aggregateID calls).
    + destruct Hl as (h & -> & _). split; [discriminate|].
      intros [err Herr]. discriminate.
    + destruct Hl as [-> _]. split; [eauto|reflexivity].
  - intros err.
    destruct (saveAll calls memoryStore.newMemoryStore !! aggregateID);
      [discriminate|].
    intros [= <-]. split; reflexivity.
Qed.

(** X6: The order of the [Save] calls does not matter: two runs on a fresh
    store that save, under an identity, the same records with distinct
    versions leave the same history under it. *)
Theorem memoryStore_Save_order_independent
    (calls1 calls2 : list (string * list Record_)) (aggregateID : string) :
  savedTo aggregateID calls1 = true ->
  savedTo aggregateID calls2 = true ->
  Permutation (savedFor aggregateID calls1) (savedFor aggregateID calls2) ->
  List.NoDup (map Version (savedFor aggregateID calls1)) ->
  saveAll calls1 memoryStore.newMemoryStore !! aggregateID
    = saveAll calls2 memoryStore.newMemoryStore !! aggregateID.
Proof.
  intros Hs1 Hs2 Hperm Hnd.
  pose proof (saveAll_lookup calls1 aggregateID) as Hl1.
  pose proof (saveAll_lookup calls2 aggregateID) as Hl2.
  rewrite Hs1 in Hl1. rewrite Hs2 in Hl2.
  destruct Hl1 as (h1 & -> & Ha1 & Hp1).
  destruct Hl2 as (h2 & -> & Ha2 & Hp2).
  f_equal. apply strictly_ascending_unique.
  - apply ascending_distinct; [exact Ha1|].
    eapply Permutation_NoDup; [|exact Hnd].
    apply Permutation_map. now symmetry.
  - apply ascending_distinct; [exact Ha2|].
    eapply Permutation_NoDup; [|exact Hnd].
    apply Permutation_map. rewrite Hp2. now symmetry.
  - now rewrite Hp1, Hp2.
Qed.

Lemma memoryStore_Save_order_independent_witness :
  saveAll [("123", [mkRecord 3 []]); ("123", [mkRecord 1 []; mkRecord 2 []])]
          memoryStore.newMemoryStore !! "123"
    = saveAll [("123", [mkRecord 2 []]); ("9", [mkRecord 7 []]);
               ("123", [mkRecord 1 []; mkRecord 3 []])]
              memoryStore.newMemoryStore !! "123".
Proof.
  apply (memoryStore_Save_order_independent
           [("123", [mkRecord 3 []]); ("123", [mkRecord 1 []; mkRecord 2 []])]
           [("123", [mkRecord 2 []]); ("9", [mkRecord 7 []]);
            ("123", [mkRecord 1 []; mkRecord 3 []])] "123").
  - reflexivity.
  - reflexivity.
  - simpl. apply perm_trans with [mkRecord 1 []; mkRecord 3 []; mkRecord 2 []];
      [apply perm_swap|].
    apply perm_trans with [mkRecord 1 []; mkRecord 2 []; mkRecord 3 []];
      [apply perm_skip, perm_swap|apply perm_swap].
  - simpl. repeat constructor; simpl; intuition discriminate.
Defined.

(** ** More on the Repository *)

Section MoreRepositoryProperties.

Context {S A E C : Type}.
Context `{Event E} `{Command C} `{Aggregate A E C}.

Abbreviation Repo := (@Repository S A E).

(** The left fold of [On] over events: the aggregate after all of them,
    when [On] accepts every one. *)
Fixpoint applyEvents (aggregate : A) (events : list E) : option A :=
  match events with
  | [] => Some aggregate
  | event :: rest =>
      match On aggregate event with
      | (aggregate1, None) => applyEvents aggregate1 rest
      | (_, Some _) => None
      end
  end.

(** The serializer decodes the records, one by one, into the events. *)
Definition decodes (r : Repo) (history : History) (events : list E) : Prop :=
  Forall2 (fun record event => UnmarshalEvent (serializer r) record = inr event)
          history events.

(** The version of the last event, or [version] when there is none. *)
Definition lastVersion (events : list E) (version : Z) : Z :=
  match last events with
  | Some event => EventVersion event
  | None => version
  end.

Lemma replay_app_ok (r : Repo) (h1 h2 : History) (aggregate a1 : A)
    (version v1 : Z) :
  replay r h1 aggregate version = (Some a1, v1, None) ->
  replay r (h1 ++ h2) aggregate version = replay r h2 a1 v1.
Proof.
  revert aggregate version.
  induction h1 as [|record rest IH]; simpl; intros aggregate version.
  - now intros [= <- <-].
  - destruct (UnmarshalEvent (serializer r) record) as [e|event];
      [discriminate|].
    destruct (On aggregate event) as [aggregate1 [e|]]; [discriminate|].
    apply IH.
Qed.

Lemma replay_decodes (r : Repo) (history : History) (events : list E)
    (aggregate a1 : A) (version : Z) :
  decodes r history events ->
  applyEvents aggregate events = Some a1 ->
  replay r history aggregate version
    = (Some a1, lastVersion events version, None).
Proof.
  unfold decodes, lastVersion. intros Hd. revert aggregate version.
  induction Hd as [|record event history events Hu Hd IH]; simpl;
    intros aggregate version.
  - now intros [= <-].
  - rewrite Hu.
    destruct (On aggregate event) as [aggregate1 [e|]]; [discriminate|].
    intros Hfold. rewrite (IH _ (EventVersion event) Hfold).
    rewrite last_cons. now destruct (last events).
Qed.

Lemma decodes_nil_inv (r : Repo) (history : History) :
  decodes r history [] -> history = [].
Proof. unfold decodes. now intros ->%Forall2_nil_inv_r. Qed.

(** X10: [Load] is the left fold of [On] over the decoded history: when the
    Store returns a non-empty history, the serializer decodes every record
    and the aggregate accepts every event, [Load] returns the aggregate
    folded from the zero value and the version of the last event. *)
Theorem Repository_Load_folds_history (r : Repo) (aggregateID : string)
    (s : S) (history : History) (events : list E) (aggregate : A) :
  snd (Store_Load (store r) s aggregateID 0 0) = inr history ->
  history <> [] ->
  decodes r history events ->
  applyEvents (newAggregate r) events = Some aggregate ->
  returned (Repository_Load r aggregateID s)
    = (Some aggregate, lastVersion events 0, None).
Proof.
  intros Hload Hne Hd Hfold. rewrite Repository_Load_eq.
  unfold returned. cbn [fst snd]. rewrite Hload.
  destruct history as [|record rest]; [congruence|]. cbn [length Nat.eqb].
  now apply replay_decodes.
Qed.

(** X11: A record the serializer cannot decode stops [Load]: when the records
    before it decode and fold, [Load] returns the serializer's error as it
    is, with no aggregate and version 0, whatever follows the record. *)
Theorem Repository_Load_decode_failure (r : Repo) (aggregateID : string)
    (s : S) (pre post : History) (record : Record_) (events : list E)
    (aggregate : A) (err : error) :
  snd (Store_Load (store r) s aggregateID 0 0)
    = inr (pre ++ record :: post) ->
  decodes r pre events ->
  applyEvents (newAggregate r) events = Some aggregate ->
  UnmarshalEvent (serializer r) record = inl err ->
  returned (Repository_Load r aggregateID s) = (None, 0, Some err).
Proof.
  intros Hload Hd Hfold Hu. rewrite Repository_Load_eq.
  unfold returned. cbn [fst snd]. rewrite Hload.
  destruct (length (pre ++ record :: post) =? 0)%nat eqn:Hlen.
  { apply Nat.eqb_eq in Hlen. rewrite length_app in Hlen. simpl in Hlen. lia. }
  rewrite (replay_app_ok r pre (record :: post) _ aggregate 0
             (lastVersion events 0) (replay_decodes r _ _ _ _ 0 Hd Hfold)).
  simpl. now rewrite Hu.
Qed.

(** X12: An event the aggregate rejects stops [Load]: when the records before
    it decode and fold, [Load] fails with the aggregate's error wrapped
    under a message that names the event's type.  The error is classified
    under a sentinel exactly when the aggregate's own error is, and its
    text is the message followed by the text of the cause. *)
Theorem Repository_Load_rejected_event (r : Repo) (aggregateID : string)
    (s : S) (pre post : History) (record : Record_) (events : list E)
    (event : E) (aggregate : A) (err : error) :
  snd (Store_Load (store r) s aggregateID 0 0)
    = inr (pre ++ record :: post) ->
  decodes r pre events ->
  applyEvents (newAggregate r) events = Some aggregate ->
  UnmarshalEvent (serializer r) record = inr event ->
  snd (On aggregate event) = Some err ->
  exists failure,
    returned (Repository_Load r aggregateID s) = (None, 0, Some failure)
    /\ Unwrap failure = Some err
    /\ (forall target,
          xerrors_Is (Some failure) target = xerrors_Is (Some err) target)
    /\ Error failure
       = "aggregate was unable to handle event, " +:+ EventType event
           +:+ ": " +:+ Error err.
Proof.
  intros Hload Hd Hfold Hu Hon.
  exists (WrapError ("aggregate was unable to handle event, "
                       +:+ EventType event) err).
  split; [|repeat split].
  - rewrite Repository_Load_eq. unfold returned. cbn [fst snd].
    rewrite Hload.
    destruct (length (pre ++ record :: post) =? 0)%nat eqn:Hlen.
    { apply Nat.eqb_eq in Hlen. rewrite length_app in Hlen.
      simpl in Hlen. lia. }
    rewrite (replay_app_ok r pre (record :: post) _ aggregate 0
               (lastVersion events 0) (replay_decodes r _ _ _ _ 0 Hd Hfold)).
    simpl. rewrite Hu.
    destruct (On aggregate event) as [aggregate1 oerr]. simpl in Hon.
    now subst oerr.
Qed.

(** X13: [Load] only reads: whatever the outcome, it makes exactly one call on
    the Store, [Load] with the full range 0, 0, and leaves the Store in the
    state that call left; it writes nothing and calls no observer. *)
Theorem Repository_Load_reads_only (r : Repo) (aggregateID : string) (s : S) :
  (exists err,
     effects (Repository_Load r aggregateID s)
       = [CallLoad aggregateID 0 0 err]
     /\ (err = None
         <-> exists history,
               snd (Store_Load (store r) s aggregateID 0 0) = inr history))
  /\ final (Repository_Load r aggregateID s)
     = fst (Store_Load (store r) s aggregateID 0 0)
  /\ noWrite (effects (Repository_Load r aggregateID s)) = true
  /\ noObserver (effects (Repository_Load r aggregateID s)) = true.
Proof.
  rewrite Repository_Load_eq. unfold effects, final. cbn [fst snd].
  split; [|now repeat split].
  eexists. split; [reflexivity|].
  destruct (snd (Store_Load (store r) s aggregateID 0 0)) as [e|history].
  - split; [discriminate|]. now intros [history Hh].
  - split; [eauto|reflexivity].
Qed.

End MoreRepositoryProperties.

Section MoreApplyProperties.

Context {S A E C : Type}.
Context `{Event E} `{Command C} `{Aggregate A E C}.

Abbreviation Repo := (@Repository S A E).

(** The serializer encodes the events, one by one, into the records. *)
Definition encodes (r : Repo) (events : list E) (records : list Record_)
    : Prop :=
  Forall2 (fun event record => MarshalEvent (serializer r) event = inr record)
          events records.

Lemma makeRecords_encodes (r : Repo) (events : list E)
    (records : list Record_) :
  makeRecords r events = inr records <-> encodes r events records.
Proof.
  unfold encodes. revert records.
  induction events as [|event rest IH]; simpl; intros records.
  - split; [intros [= <-]; constructor|].
    now intros ->%Forall2_nil_inv_l.
  - destruct (MarshalEvent (serializer r) event) as [e|record] eqn:Hm.
    + split; [discriminate|].
      intros (record & records1 & Hr & _ & _)%Forall2_cons_inv_l. congruence.
    + destruct (makeRecords r rest) as [e|records1].
      * split; [discriminate|].
        intros (record1 & records2 & _ & Hrest & _)%Forall2_cons_inv_l.
        apply IH in Hrest. discriminate.
      * split.
        -- intros [= <-]. constructor; [exact Hm|]. now apply IH.
        -- intros (record1 & records2 & Hr & Hrest & ->)%Forall2_cons_inv_l.
           apply IH in Hrest. congruence.
Qed.

(** X8: [makeRecords] yields one record per event, in order, each the
    encoding of its event; and it fails exactly when some event does not
    encode, with the error of the first such event. *)
Theorem makeRecords_all_or_first_error (r : Repo) (events : list E) :
  (forall records,
     makeRecords r events = inr records <-> encodes r events records)
  /\ (forall err,
        makeRecords r events = inl err
        <-> exists pre event post records,
              events = pre ++ event :: post
              /\ encodes r pre records
              /\ MarshalEvent (serializer r) event = inl err).
Proof.
  split; [intros records; apply makeRecords_encodes|].
  unfold encodes. induction events as [|event rest IH]; intros err.
  - simpl. split; [discriminate|].
    intros (pre & e & post & records & Heq & _). now destruct pre.
  - simpl.
    destruct (MarshalEvent (serializer r) event) as [e|record] eqn:Hm.
    + split.
      * intros [= ->]. exists [], event, rest, []. repeat split; auto.
      * intros (pre & e0 & post & records & Heq & Hpre & He0).
        destruct pre as [|p pre]; simpl in Heq; injection Heq as <- ->.
        -- congruence.
        -- apply Forall2_cons_inv_l in Hpre as (? & ? & Hp & _). congruence.
    + destruct (makeRecords r rest) as [e|records1] eqn:Hrest.
      * split.
        -- intros [= ->].
           destruct (proj1 (IH err) eq_refl)
             as (pre & e0 & post & records & -> & Hpre & He0).
           exists (event :: pre), e0, post, (record :: records).
           repeat split; [now constructor|exact He0].
        -- intros (pre & e0 & post & records & Heq & Hpre & He0).
           destruct pre as [|p pre]; simpl in Heq; injection Heq as <- ->.
           ++ congruence.
           ++ apply Forall2_cons_inv_l in Hpre as (? & records2 & _ & Hpre & _).
              f_equal. symmetry.
              assert (inl e = inl err :> error + list Record_) as [= ->];
                [|reflexivity].
              apply IH. exists pre, e0, post, records2. now repeat split.
      * split; [discriminate|].
        intros (pre & e0 & post & records & Heq & Hpre & He0).
        destruct pre as [|p pre]; simpl in Heq; injection Heq as <- ->.
        -- congruence.
        -- apply Forall2_cons_inv_l in Hpre as (? & records2 & _ & Hpre & _).
           assert (inr records1 = inl err :> error + list Record_)
             as Habs; [|discriminate].
           apply IH. exists pre, e0, post, records2. now repeat split.
Qed.

(** X9: [Repository.Save] of a non-empty batch encodes every event before it
    touches the Store: when an event does not encode it returns the
    serializer's error and makes no call, so no record of the batch is
    stored; otherwise it makes one [Save] call that carries every record,
    under the identity of the first event, and returns what the Store
    answered. *)
Theorem Repository_Save_encodes_then_stores (r : Repo) (first : E)
    (rest : list E) (s : S) :
  (forall err,
     makeRecords r (first :: rest) = inl err ->
     Repository_Save r (first :: rest) s = (Some err, s, []))
  /\ (forall records,
        encodes r (first :: rest) records ->
        length records = length (first :: rest)
        /\ effects (Repository_Save r (first :: rest) s)
           = [CallSave (AggregateID first) records
                (snd (Store_Save (store r) s (AggregateID first) records))]
        /\ returned (Repository_Save r (first :: rest) s)
           = snd (Store_Save (store r) s (AggregateID first) records)
        /\ final (Repository_Save r (first :: rest) s)
           = fst (Store_Save (store r) s (AggregateID first) records)).
Proof.
  split.
  - intros err Herr. unfold Repository_Save. now rewrite Herr.
  - intros records Henc.
    split; [symmetry; exact (Forall2_length _ _ _ Henc)|].
    apply makeRecords_encodes in Henc.
    unfold Repository_Save. rewrite Henc. unfold store_Save.
    now destruct (Store_Save (store r) s (AggregateID first) records).
Qed.

Lemma loadForApply_Some (r : Repo) (aggregateID : string) (s : S) :
  exists aggregate,
    fst (returned (loadForApply r aggregateID s)) = Some aggregate.
Proof.
  destruct (loadForApply_parts r aggregateID s) as (-> & _ & _).
  cbn [fst].
  destruct (returned (Repository_Load r aggregateID s))
    as [[res v] [err|]] eqn:HL; cbn [fst snd]; [eauto|].
  rewrite Repository_Load_eq in HL. unfold returned in HL. cbn [fst snd] in HL.
  destruct (snd (Store_Load (store r) s aggregateID 0 0)) as [e|history];
    [discriminate|].
  destruct (length history =? 0)%nat; [discriminate|].
  apply replay_ok in HL as [[a ->] _]. eauto.
Qed.

(** [Apply] in terms of its parts, once the handler has generated events
    that encode. *)
Lemma applyCommand_persist (r : Repo) (command : C) (aggregateID : string)
    (a a1 : A) (h : A -> C -> A * (error + list E)) (events : list E)
    (records : list Record_) (version : Z) (s : S) :
  asCommandHandler = Some h ->
  h a command = (a1, inr events) ->
  makeRecords r events = inr records ->
  applyCommand r command aggregateID (Some a) version s
    = (match returned (persist r aggregateID a1 events records s) with
       | Some err => (0, Some err)
       | None => (lastVersion events version, None)
       end,
       final (persist r aggregateID a1 events records s),
       effects (persist r aggregateID a1 events records s)
       ++ match returned (persist r aggregateID a1 events records s) with
          | Some _ => []
          | None => published r events
          end).
Proof.
  intros Hh Hcall Hrec. unfold applyCommand. rewrite Hh, Hcall, Hrec.
  unfold bind.
  destruct (persist r aggregateID a1 events records s) as [[[err|] s1] tw];
    unfold returned, final, effects; cbn [fst snd].
  - unfold ret. now rewrite app_nil_r.
  - rewrite publish_eq. unfold ret. now rewrite app_nil_r.
Qed.

(** X14: [Apply] refuses a nil command and a command with a blank aggregate id
    before anything else: version 0, a flat error, no call on the Store,
    no observer, the Store as it was. *)
Theorem Repository_Apply_rejects_nil_and_blank (r : Repo) (s : S) :
  Repository_Apply r None s
    = (0, Some (ErrorString
                  "command provided to Repository.Apply may not be nil"),
       s, [])
  /\ (forall command : C,
        CommandAggregateID command = "" ->
        Repository_Apply r (Some command) s
          = (0, Some (ErrorString
               "command provided to Repository.Apply may not contain a blank AggregateID"),
             s, [])).
Proof.
  split; [reflexivity|].
  intros command Hblank. unfold Repository_Apply.
  now rewrite Hblank.
Qed.

(** X15: An aggregate without the command-handling capability makes every
    [Apply] fail, after the [Load]: version 0, an error that names the
    aggregate, no call on the Store but that [Load]. *)
Theorem Repository_Apply_without_CommandHandler (r : Repo) (command : C)
    (s : S) :
  asCommandHandler (A:=A) (E:=E) (C:=C) = None ->
  CommandAggregateID command <> "" ->
  exists aggregate,
    returned (Repository_Apply r (Some command) s)
      = (0, Some (ErrorString
                    ("aggregate, " +:+ Sprint aggregate
                       +:+ ", does not implement CommandHandler")))
    /\ effects (Repository_Apply r (Some command) s)
       = effects (Repository_Load r (CommandAggregateID command) s)
    /\ final (Repository_Apply r (Some command) s)
       = final (Repository_Load r (CommandAggregateID command) s).
Proof.
  intros Hnone Hid.
  destruct (Repository_Apply_parts r command s Hid) as [-> ->].
  rewrite (Repository_Apply_final r command s Hid).
  destruct (loadForApply_Some r (CommandAggregateID command) s) as [a ->].
  destruct (loadForApply_parts r (CommandAggregateID command) s)
    as (_ & -> & ->).
  exists a. unfold applyCommand. rewrite Hnone.
  unfold ret, returned, final, effects. cbn [fst snd].
  now rewrite app_nil_r.
Qed.

(** X16: A failure of the command handler comes back from [Apply] as it is,
    with version 0; the only call on the Store is the [Load]. *)
Theorem Repository_Apply_handler_failure (r : Repo) (command : C) (s : S)
    (h : A -> C -> A * (error + list E)) (a a1 : A) (err : error) :
  CommandAggregateID command <> "" ->
  asCommandHandler = Some h ->
  fst (returned (loadForApply r (CommandAggregateID command) s)) = Some a ->
  h a command = (a1, inl err) ->
  returned (Repository_Apply r (Some command) s) = (0, Some err)
  /\ effects (Repository_Apply r (Some command) s)
     = effects (Repository_Load r (CommandAggregateID command) s)
  /\ final (Repository_Apply r (Some command) s)
     = final (Repository_Load r (CommandAggregateID command) s).
Proof.
  intros Hid Hh Ha Hcall.
  destruct (Repository_Apply_parts r command s Hid) as [-> ->].
  rewrite (Repository_Apply_final r command s Hid). rewrite Ha.
  destruct (loadForApply_parts r (CommandAggregateID command) s)
    as (_ & -> & ->).
  unfold applyCommand. rewrite Hh, Hcall.
  unfold ret, returned, final, effects. cbn [fst snd].
  now rewrite app_nil_r.
Qed.

(** X17: When a generated event does not encode, [Apply] returns the
    serializer's error with version 0 and stores nothing: the only call on
    the Store is the [Load]. *)
Theorem Repository_Apply_encoding_failure (r : Repo) (command : C) (s : S)
    (h : A -> C -> A * (error + list E)) (a a1 : A) (events : list E)
    (err : error) :
  CommandAggregateID command <> "" ->
  asCommandHandler = Some h ->
  fst (returned (loadForApply r (CommandAggregateID command) s)) = Some a ->
  h a command = (a1, inr events) ->
  makeRecords r events = inl err ->
  returned (Repository_Apply r (Some command) s) = (0, Some err)
  /\ effects (Repository_Apply r (Some command) s)
     = effects (Repository_Load r (CommandAggregateID command) s)
  /\ final (Repository_Apply r (Some command) s)
     = final (Repository_Load r (CommandAggregateID command) s).
Proof.
  intros Hid Hh Ha Hcall Hrec.
  destruct (Repository_Apply_parts r command s Hid) as [-> ->].
  rewrite (Repository_Apply_final r command s Hid). rewrite Ha.
  destruct (loadForApply_parts r (CommandAggregateID command) s)
    as (_ & -> & ->).
  unfold applyCommand. rewrite Hh, Hcall, Hrec.
  unfold ret, returned, final, effects. cbn [fst snd].
  now rewrite app_nil_r.
Qed.

Lemma lastVersion_cons (first : E) (rest : list E) (v1 v2 : Z) :
  lastVersion (first :: rest) v1 = lastVersion (first :: rest) v2.
Proof.
  unfold lastVersion. rewrite last_cons. now destruct (last rest).
Qed.

(** The fold of [Apply] before [SaveAggregate] succeeds exactly when [On]
    accepts every event, with the folded aggregate; when it fails, its
    error is a flat message: it has no cause to unwrap and is classified
    under no sentinel. *)
Lemma foldEvents_cases (aggregateID : string) (aggregate : A)
    (events : list E) :
  match foldEvents aggregateID aggregate events with
  | (a2, None) => applyEvents aggregate events = Some a2
  | (_, Some err) =>
      applyEvents aggregate events = None
      /\ Unwrap err = None
      /\ forall target, xerrors_Is (Some err) target = false
  end.
Proof.
  revert aggregate. induction events as [|event rest IH]; simpl;
    intros aggregate; [reflexivity|].
  destruct (On aggregate event) as [aggregate1 [e|]].
  - now repeat split.
  - apply IH.
Qed.

(** X18: On a Store with the [SaveAggregate] method of [StoreAggregate], once
    the handler has generated events that encode, [Apply] never calls the
    plain [Save].  It first folds the events into the aggregate: when [On]
    rejects one, [Apply] fails with a flat error that hides the cause from
    [xerrors.Is], and the Store is not called again.  Otherwise it calls
    [SaveAggregate] once, under the command's aggregate id, with the
    folded aggregate and the records; a failure of that call comes back
    as it is, a success is followed by the observer calls. *)
Theorem Repository_Apply_StoreAggregate_path (r : Repo) (command : C) (s : S)
    (f : S -> string -> A -> list Record_ -> S * option error)
    (h : A -> C -> A * (error + list E)) (a a1 : A) (events : list E)
    (records : list Record_) :
  Store_SaveAggregate (store r) = StoreAggregate_SaveAggregate f ->
  CommandAggregateID command <> "" ->
  asCommandHandler = Some h ->
  fst (returned (loadForApply r (CommandAggregateID command) s)) = Some a ->
  h a command = (a1, inr events) ->
  makeRecords r events = inr records ->
  existsb isPlainSave (effects (Repository_Apply r (Some command) s)) = false
  /\ match applyEvents a1 events with
     | None =>
         (exists err,
            returned (Repository_Apply r (Some command) s) = (0, Some err)
            /\ Unwrap err = None
            /\ forall target, xerrors_Is (Some err) target = false)
         /\ effects (Repository_Apply r (Some command) s)
            = effects (Repository_Load r (CommandAggregateID command) s)
         /\ final (Repository_Apply r (Some command) s)
            = final (Repository_Load r (CommandAggregateID command) s)
     | Some a2 =>
         effects (Repository_Apply r (Some command) s)
           = effects (Repository_Load r (CommandAggregateID command) s)
             ++ CallSaveAggregate (CommandAggregateID command) a2 records
                  (snd (f (final (Repository_Load r
                                    (CommandAggregateID command) s))
                          (CommandAggregateID command) a2 records))
             :: match snd (f (final (Repository_Load r
                                       (CommandAggregateID command) s))
                             (CommandAggregateID command) a2 records) with
                | Some _ => []
                | None => published r events
                end
         /\ returned (Repository_Apply r (Some command) s)
            = match snd (f (final (Repository_Load r
                                     (CommandAggregateID command) s))
                           (CommandAggregateID command) a2 records) with
              | Some err => (0, Some err)
              | None =>
                  (lastVersion events
                     (snd (fst (returned
                        (Repository_Load r (CommandAggregateID command) s)))),
                   None)
              end
         /\ final (Repository_Apply r (Some command) s)
            = fst (f (final (Repository_Load r
                               (CommandAggregateID command) s))
                     (CommandAggregateID command) a2 records)
     end.
Proof.
  intros Hcap Hid Hh Ha Hcall Hrec.
  destruct (Repository_Apply_parts r command s Hid) as [-> ->].
  rewrite (Repository_Apply_final r command s Hid). rewrite Ha.
  destruct (loadForApply_parts r (CommandAggregateID command) s)
    as (Hret & -> & ->).
  assert (snd (returned (loadForApply r (CommandAggregateID command) s))
          = snd (fst (returned
                        (Repository_Load r (CommandAggregateID command) s))))
    as -> by now rewrite Hret.
  rewrite (applyCommand_persist r command _ a a1 h events records _ _
             Hh Hcall Hrec).
  unfold persist. rewrite Hcap.
  pose proof (foldEvents_cases (CommandAggregateID command) a1 events) as Hf.
  destruct (Repository_Load_effects r (CommandAggregateID command) s)
    as [lerr ->].
  destruct (foldEvents (CommandAggregateID command) a1 events)
    as [a2 [ferr|]].
  - destruct Hf as (-> & Hu & Hi).
    unfold ret, returned, final, effects. cbn [fst snd].
    split; [reflexivity|]. split; [eauto|]. now split.
  - rewrite Hf. unfold store_SaveAggregate.
    destruct (f (final (Repository_Load r (CommandAggregateID command) s))
                (CommandAggregateID command) a2 records) as [s1 serr].
    unfold returned, final, effects. cbn [fst snd].
    split; [|now destruct serr].
    destruct serr; cbn [app existsb isPlainSave orb]; [reflexivity|].
    pose proof (published_isObserver r events) as Hp.
    induction (published r events) as [|x t IHt]; [reflexivity|].
    simpl in Hp |- *. apply andb_prop in Hp as [Hx Ht].
    rewrite (IHt Ht). now destruct x.
Qed.

(** X19: On a Store without the [SaveAggregate] method of [StoreAggregate], once
    the handler has generated a non-empty batch that encodes, [Apply]
    makes one [Save] call with all the records, under the aggregate id of
    the first generated event and not the command's.  A failure of that
    call comes back as it is with version 0 and no observer is called;
    on success [Apply] returns the version of the last generated event
    and then calls the observers. *)
Theorem Repository_Apply_plain_path (r : Repo) (command : C) (s : S)
    (h : A -> C -> A * (error + list E)) (a a1 : A) (first : E)
    (rest : list E) (records : list Record_) :
  (forall f, Store_SaveAggregate (store r) <> StoreAggregate_SaveAggregate f) ->
  CommandAggregateID command <> "" ->
  asCommandHandler = Some h ->
  fst (returned (loadForApply r (CommandAggregateID command) s)) = Some a ->
  h a command = (a1, inr (first :: rest)) ->
  makeRecords r (first :: rest) = inr records ->
  effects (Repository_Apply r (Some command) s)
    = effects (Repository_Load r (CommandAggregateID command) s)
      ++ CallSave (AggregateID first) records
           (snd (Store_Save (store r)
                   (final (Repository_Load r (CommandAggregateID command) s))
                   (AggregateID first) records))
      :: match snd (Store_Save (store r)
                      (final (Repository_Load r
                                (CommandAggregateID command) s))
                      (AggregateID first) records) with
         | Some _ => []
         | None => published r (first :: rest)
         end
  /\ returned (Repository_Apply r (Some command) s)
     = match snd (Store_Save (store r)
                    (final (Repository_Load r (CommandAggregateID command) s))
                    (AggregateID first) records) with
       | Some err => (0, Some err)
       | None => (lastVersion (first :: rest) 0, None)
       end
  /\ final (Repository_Apply r (Some command) s)
     = fst (Store_Save (store r)
              (final (Repository_Load r (CommandAggregateID command) s))
              (AggregateID first) records).
Proof.
  intros Hcap Hid Hh Ha Hcall Hrec.
  destruct (Repository_Apply_parts r command s Hid) as [-> ->].
  rewrite (Repository_Apply_final r command s Hid). rewrite Ha.
  destruct (loadForApply_parts r (CommandAggregateID command) s)
    as (_ & -> & ->).
  rewrite (applyCommand_persist r command _ a a1 h (first :: rest) records
             _ _ Hh Hcall Hrec).
  assert (persist r (CommandAggregateID command) a1 (first :: rest) records
            (final (Repository_Load r (CommandAggregateID command) s))
          = store_Save r (AggregateID first) records
              (final (Repository_Load r (CommandAggregateID command) s)))
    as ->.
  { unfold persist, Repository_Save. rewrite Hrec.
    destruct (Store_SaveAggregate (store r)) as [|f|f] eqn:Hc;
      [reflexivity| |reflexivity].
    now destruct (Hcap f). }
  unfold store_Save.
  destruct (Store_Save (store r)
              (final (Repository_Load r (CommandAggregateID command) s))
              (AggregateID first) records) as [s1 serr].
  unfold returned, final, effects. cbn [fst snd].
  destruct serr; [now repeat split|].
  rewrite (lastVersion_cons first rest _ 0). now repeat split.
Qed.

(** X20: The observer calls of a successful [Apply], in the order they are
    made: each generated event in generation order, and for each event
    every observer in registration order; nothing else of what [Apply]
    does is an observer call. *)
Theorem Repository_Apply_publishes_in_order (r : Repo) (command : C) (s : S)
    (version : Z) :
  returned (Repository_Apply r (Some command) s) = (version, None) ->
  exists events,
    generatedEvents r command s = Some events
    /\ List.filter isObserver (effects (Repository_Apply r (Some command) s))
       = flat_map (fun event =>
                     map (fun observer => CallObserver observer event)
                         (observers r)) events
    /\ length (List.filter isObserver
                 (effects (Repository_Apply r (Some command) s)))
       = (length events * length (observers r))%nat.
Proof.
  intros Hret.
  assert (CommandAggregateID command <> "") as Hid.
  { intros Hblank.
    destruct (Repository_Apply_rejected r (Some command) s Hblank) as [e He].
    rewrite He in Hret. discriminate. }
  destruct (Repository_Apply_parts r command s Hid) as [Hr ->].
  rewrite Hr in Hret. clear Hr. unfold generatedEvents.
  destruct (loadForApply_parts r (CommandAggregateID command) s)
    as (_ & _ & ->).
  destruct (Repository_Load_effects r (CommandAggregateID command) s)
    as [lerr ->].
  destruct (applyCommand_shape r command (CommandAggregateID command)
              (fst (returned (loadForApply r (CommandAggregateID command) s)))
              (snd (returned (loadForApply r (CommandAggregateID command) s)))
              (final (loadForApply r (CommandAggregateID command) s)))
    as [(err & He & _)|(a & h & events & tw & Ha & Hh & Hev & _ & -> & Htw)].
  { rewrite He in Hret. discriminate. }
  exists events.
  destruct (returned (loadForApply r (CommandAggregateID command) s))
    as [aggregate loaded].
  simpl in Ha. subst aggregate. rewrite Hh, Hev.
  split; [reflexivity|].
  assert (List.filter isObserver
            ([CallLoad (CommandAggregateID command) 0 0 lerr]
               ++ tw ++ published r events) = published r events) as ->.
  { cbn [app List.filter isObserver].
    assert (List.filter isObserver tw = []) as Htw'.
    { destruct Htw as [[-> _]|(w & -> & Hw)]; [reflexivity|].
      simpl. now destruct w. }
    rewrite List.filter_app, Htw'. cbn [app].
    pose proof (published_isObserver r events) as Hp.
    induction (published r events) as [|x t IHt]; [reflexivity|].
    simpl in Hp |- *. apply andb_prop in Hp as [-> Ht]. now rewrite (IHt Ht). }
  split; [reflexivity|].
  unfold published. clear.
  induction events as [|event rest IH]; simpl; [reflexivity|].
  now rewrite length_app, length_map, IH.
Qed.

End MoreApplyProperties.

(** ** The Repository over the in-memory store *)

Section MemoryRepositoryProperties.

Context {A E C : Type}.
Context `{Event E} `{Command C} `{Aggregate A E C}.

Abbreviation MemoryRepo := (@Repository (gmap string History) A E).

Lemma applyEvents_app (aggregate a1 : A) (events1 events2 : list E) :
  applyEvents aggregate events1 = Some a1 ->
  applyEvents aggregate (events1 ++ events2) = applyEvents a1 events2.
Proof.
  revert aggregate. induction events1 as [|event rest IH]; simpl;
    intros aggregate.
  - now intros [= <-].
  - destruct (On aggregate event) as [aggregate1 [e|]]; [discriminate|].
    apply IH.
Qed.

Lemma lastVersion_app_cons (events : list E) (first : E) (rest : list E)
    (v : Z) :
  lastVersion (events ++ first :: rest) v = lastVersion (first :: rest) v.
Proof.
  unfold lastVersion. rewrite last_app, last_cons.
  now destruct (last rest).
Qed.

Lemma memory_Store_Load (r : MemoryRepo) (m : gmap string History)
    (aggregateID : string) :
  store r = memoryStore_Store A E ->
  Store_Load (store r) m aggregateID 0 0
    = (m, memoryStore.Load m aggregateID 0 0).
Proof. now intros ->. Qed.

(** [Load] right after a [Save] of records that extend the history in
    strictly increasing version order. *)
Lemma memory_Load_after_Save (r : MemoryRepo) (m : gmap string History)
    (aggregateID : string) (records : list Record_) (events : list E)
    (first : E) (rest : list E) (a0 aggregate : A) :
  store r = memoryStore_Store A E ->
  decodes r (default [] (m !! aggregateID)) events ->
  applyEvents (newAggregate r) events = Some a0 ->
  decodes r records (first :: rest) ->
  strictly_ascending (default [] (m !! aggregateID) ++ records) ->
  applyEvents a0 (first :: rest) = Some aggregate ->
  returned (Repository_Load r aggregateID
              (fst (memoryStore.Save m aggregateID records)))
    = (Some aggregate, lastVersion (first :: rest) 0, None).
Proof.
  intros Hstore Hold Hfold0 Hnew Hasc Hfold.
  rewrite Repository_Load_eq, (memory_Store_Load r _ _ Hstore).
  unfold returned. cbn [fst snd].
  rewrite (memoryStore_Load_all _ _ _ _
             (default [] (m !! aggregateID) ++ records)).
  2:{ rewrite memoryStore_Save_lookup, String.eqb_refl.
      now rewrite sort_Sort_strictly_ascending. }
  destruct (length (default [] (m !! aggregateID) ++ records) =? 0)%nat
    eqn:Hlen.
  { apply Nat.eqb_eq in Hlen. rewrite length_app in Hlen.
    apply Forall2_length in Hnew. simpl in Hnew. lia. }
  rewrite (replay_decodes r _ (events ++ first :: rest) _ aggregate 0).
  - now rewrite lastVersion_app_cons.
  - now apply Forall2_app.
  - now rewrite (applyEvents_app _ a0).
Qed.

(** What [Load] hands to [Apply] over the in-memory store, when the
    stored history, possibly none, decodes and folds. *)
Lemma memory_loadForApply (r : MemoryRepo) (m : gmap string History)
    (aggregateID : string) (events : list E) (a0 : A) :
  store r = memoryStore_Store A E ->
  decodes r (default [] (m !! aggregateID)) events ->
  applyEvents (newAggregate r) events = Some a0 ->
  fst (returned (loadForApply r aggregateID m)) = Some a0
  /\ final (Repository_Load r aggregateID m) = m.
Proof.
  intros Hstore Hold Hfold.
  destruct (loadForApply_parts r aggregateID m) as (-> & _ & _).
  rewrite Repository_Load_eq, (memory_Store_Load r _ _ Hstore).
  unfold returned, final. cbn [fst snd]. split; [|reflexivity].
  unfold memoryStore.Load.
  destruct (m !! aggregateID) as [[|record history]|] eqn:Hm;
    cbn [default] in Hold.
  - apply Forall2_nil_inv_l in Hold. subst events.
    simpl in Hfold. simpl. congruence.
  - cbn [length Nat.eqb].
    now rewrite (replay_decodes r _ events _ a0 0 Hold Hfold).
  - apply Forall2_nil_inv_l in Hold. subst events.
    simpl in Hfold. simpl. congruence.
Qed.

(** X21: Saving events under a new identity and loading them back: when the
    batch encodes to records of strictly increasing version that the
    serializer decodes back, and the aggregate accepts the events, [Save]
    succeeds and [Load] returns the aggregate folded from the events and
    the version of the last one. *)
Theorem Repository_Save_then_Load (r : MemoryRepo) (m : gmap string History)
    (first : E) (rest : list E) (records : list Record_) (aggregate : A) :
  store r = memoryStore_Store A E ->
  m !! AggregateID first = None ->
  encodes r (first :: rest) records ->
  decodes r records (first :: rest) ->
  strictly_ascending records ->
  applyEvents (newAggregate r) (first :: rest) = Some aggregate ->
  returned (Repository_Save r (first :: rest) m) = None
  /\ returned (Repository_Load r (AggregateID first)
                 (final (Repository_Save r (first :: rest) m)))
     = (Some aggregate, lastVersion (first :: rest) 0, None).
Proof.
  intros Hstore Hfresh Henc Hdec Hasc Hfold.
  apply makeRecords_encodes in Henc.
  unfold Repository_Save. rewrite Henc. unfold store_Save. rewrite Hstore.
  unfold returned, final. cbn [fst snd memoryStore_Store Store_Save].
  split; [reflexivity|].
  apply (memory_Load_after_Save r m (AggregateID first) records []
           first rest (newAggregate r) aggregate Hstore).
  - rewrite Hfresh. constructor.
  - reflexivity.
  - exact Hdec.
  - now rewrite Hfresh.
  - exact Hfold.
Qed.

(** X22: [Apply] and the [Load] after it agree.  Over the in-memory store, let
    the stored history of the command's aggregate, possibly none, decode
    and fold to a state; let the handler, run on that state, generate a
    non-empty batch for that aggregate, which encodes to records that
    extend the history in strictly increasing version order, decode back,
    and are accepted by the aggregate.  Then [Apply] succeeds with the
    version of the last generated event, and a [Load] afterwards returns
    that version and the earlier state with the new events folded in. *)
Theorem Repository_Apply_then_Load (r : MemoryRepo) (command : C)
    (m : gmap string History) (oldEvents : list E)
    (h : A -> C -> A * (error + list E)) (a0 a1 : A) (first : E)
    (rest : list E) (records : list Record_) (aggregate : A) :
  store r = memoryStore_Store A E ->
  CommandAggregateID command <> "" ->
  decodes r (default [] (m !! CommandAggregateID command)) oldEvents ->
  applyEvents (newAggregate r) oldEvents = Some a0 ->
  asCommandHandler = Some h ->
  h a0 command = (a1, inr (first :: rest)) ->
  AggregateID first = CommandAggregateID command ->
  encodes r (first :: rest) records ->
  decodes r records (first :: rest) ->
  strictly_ascending (default [] (m !! CommandAggregateID command)
                        ++ records) ->
  applyEvents a0 (first :: rest) = Some aggregate ->
  returned (Repository_Apply r (Some command) m)
    = (lastVersion (first :: rest) 0, None)
  /\ returned (Repository_Load r (CommandAggregateID command)
                 (final (Repository_Apply r (Some command) m)))
     = (Some aggregate, lastVersion (first :: rest) 0, None).
Proof.
  intros Hstore Hid Hold Hfold0 Hh Hcall Hsame Henc Hdec Hasc Hfold.
  destruct (memory_loadForApply r m _ oldEvents a0 Hstore Hold Hfold0)
    as [Ha Hfinal].
  apply makeRecords_encodes in Henc.
  destruct (Repository_Apply_parts r command m Hid) as [-> _].
  rewrite (Repository_Apply_final r command m Hid). rewrite Ha.
  destruct (loadForApply_parts r (CommandAggregateID command) m)
    as (_ & -> & _).
  rewrite Hfinal.
  rewrite (applyCommand_persist r command _ a0 a1 h (first :: rest) records
             _ _ Hh Hcall Henc).
  assert (persist r (CommandAggregateID command) a1 (first :: rest) records m
          = (None, fst (memoryStore.Save m (CommandAggregateID command)
                          records),
             [CallSave (CommandAggregateID command) records None])) as ->.
  { unfold persist, Repository_Save, store_Save.
    rewrite Henc, Hstore, Hsame. reflexivity. }
  unfold returned, final. cbn [fst snd].
  split; [now rewrite (lastVersion_cons first rest _ 0)|].
  now apply (memory_Load_after_Save r m _ records oldEvents first rest
               a0 aggregate).
Qed.

(** X7: A [Save] without records makes the identity known to the in-memory
    store: its [Load] then answers an empty history and no error.  The
    Repository still reports such an aggregate as not found. *)
Theorem memoryStore_empty_Save_registers (r : MemoryRepo)
    (m : gmap string History) (aggregateID : string)
    (fromVersion toVersion : Z) :
  store r = memoryStore_Store A E ->
  m !! aggregateID = None ->
  memoryStore.Load m aggregateID fromVersion toVersion
    = inl (WrapError ("no aggregate found with id, " +:+ aggregateID)
                     (ErrorType errAggregateNotFound))
  /\ memoryStore.Load (fst (memoryStore.Save m aggregateID []))
       aggregateID fromVersion toVersion = inr []
  /\ exists err,
       returned (Repository_Load r aggregateID
                   (fst (memoryStore.Save m aggregateID [])))
         = (None, 0, Some err)
       /\ IsNotFoundError (Some err) = true.
Proof.
  intros Hstore Hfresh.
  assert (memoryStore.Load (fst (memoryStore.Save m aggregateID []))
            aggregateID fromVersion toVersion = inr []) as Hempty.
  { apply memoryStore_Load_all.
    rewrite memoryStore_Save_lookup, String.eqb_refl. now rewrite Hfresh. }
  split; [unfold memoryStore.Load; now rewrite Hfresh|].
  split; [exact Hempty|].
  rewrite Repository_Load_eq, (memory_Store_Load r _ _ Hstore).
  unfold returned. cbn [fst snd].
  rewrite (memoryStore_Load_all _ _ _ _ []).
  - eexists. split; reflexivity.
  - rewrite memoryStore_Save_lookup, String.eqb_refl. now rewrite Hfresh.
Qed.

End MemoryRepositoryProperties.

(** ** More test aggregates *)

(** The [Entity] of the package's own test: [On] accepts everything and
    there is no command handler. *)
Module LocalEntity.
Import Fixture.

Inductive Entity : Type := mkLocalEntity.

#[export] Instance Entity_Aggregate : Aggregate Entity TestEvent TestCommand := {|
  zero := mkLocalEntity;
  On := fun item _ => (item, None);
  TypeName := "*eventsource.Entity";
  Sprint := fun _ => "&{}";
  asCommandHandler := None
|}.

Definition repository
    : @Repository (gmap string History) Entity TestEvent :=
  mkRepository (memoryStore_Store Entity TestEvent)
               Repositories.testSerializer [].

End LocalEntity.

(** The [Order] aggregate of the scenario tests: an order is created, then
    shipped, and shipping anything but a created order is refused. *)
Module Orders.
Import Fixture.

Record Order : Type := mkOrder {
  Order_ID : string;
  Order_Version : Z;
  Order_CreatedAt : Z;
  Order_UpdatedAt : Z;
  State : string
}.

Inductive OrderEvent : Type :=
| OrderCreated (m : Model)
| OrderShipped (m : Model).

Definition order_model (event : OrderEvent) : Model :=
  match event with OrderCreated m | OrderShipped m => m end.

#[export] Instance OrderEvent_Event : Event OrderEvent := {|
  AggregateID := fun event => ID (order_model event);
  EventVersion := fun event => Model_Version (order_model event);
  EventAt := fun event => At (order_model event);
  EventType := fun event =>
    match event with
    | OrderCreated _ => "OrderCreated"
    | OrderShipped _ => "OrderShipped"
    end
|}.

Inductive OrderCommand : Type :=
| CreateOrder (id : string)
| ShipOrder (id : string).

#[export] Instance OrderCommand_Command : Command OrderCommand := {|
  CommandAggregateID := fun command =>
    match command with CreateOrder id | ShipOrder id => id end
|}.

Definition Order_On (item : Order) (event : OrderEvent)
    : Order * option error :=
  let state := match event with
               | OrderCreated _ => "created"
               | OrderShipped _ => "shipped"
               end in
  (mkOrder (AggregateID event) (EventVersion event) (Order_CreatedAt item)
           (EventAt event) state,
   None).

Definition Order_Apply (item : Order) (command : OrderCommand)
    : Order * (error + list OrderEvent) :=
  match command with
  | CreateOrder id =>
      (item, inr [OrderCreated (mkModel id (Order_Version item + 1) time_Now)])
  | ShipOrder id =>
      if String.eqb (State item) "created"
      then (item,
            inr [OrderShipped (mkModel id (Order_Version item + 1) time_Now)])
      else (item,
            inl (ErrorString ("order, " +:+ id +:+ ", has already shipped")))
  end.

#[export] Instance Order_Aggregate : Aggregate Order OrderEvent OrderCommand := {|
  zero := mkOrder "" 0 0 0 "";
  On := Order_On;
  TypeName := "*scenario_test.Order";
  Sprint := fun item => Order_ID item;
  asCommandHandler := Some Order_Apply
|}.

(** A serializer that encodes and decodes [OrderCreated] and rejects
    [OrderShipped], as an encoder rejects a value it does not support. *)
Definition createdOnlySerializer : Serializer OrderEvent :=
  mkSerializer OrderEvent
    (fun event =>
       match event with
       | OrderCreated m => inr (mkRecord (Model_Version m) (put_Model m))
       | OrderShipped _ => inl (invalidEncoding "unable to encode event")
       end)
    (fun record =>
       match get_Model (Data record) with
       | Some (m, []) => inr (OrderCreated m)
       | _ => inl (invalidEncoding "unable to unmarshal event")
       end).

Definition repository
    : @Repository (gmap string History) Order OrderEvent :=
  mkRepository (memoryStore_Store Order OrderEvent) createdOnlySerializer [].

(** The store after [CreateOrder] for the order "abc". *)
Definition createdStore : gmap string History :=
  final (Repository_Apply repository (Some (CreateOrder "abc"))
           memoryStore.newMemoryStore).

End Orders.

(** ** The further properties on the test aggregates *)

Section MoreOnTheTestAggregates.
Import Fixture Repositories.

#[local] Existing Instance LocalEntity.Entity_Aggregate.
#[local] Existing Instance Orders.OrderEvent_Event.
#[local] Existing Instance Orders.OrderCommand_Command.
#[local] Existing Instance Orders.Order_Aggregate.

(** The record the test serializer encodes an event into. *)
Definition recordOf (event : TestEvent) : Record_ :=
  match MarshalEvent testSerializer event with
  | inr record => record
  | inl _ => mkRecord 0 []
  end.

(** The repository of [TestApply]: its serializer knows [EntityCreated]
    only. *)
Definition createdRepository
    : @Repository (gmap string History) Entity TestEvent :=
  mkRepository (memoryStore_Store Entity TestEvent) createdSerializer [].

(** The example of the tests: the entity "123" is created, then named. *)
Definition jonesEvents : list TestEvent :=
  [EntityCreated (mkModel "123" 1 3); EntityNameSet (mkModel "123" 2 4) "Jones"].

Definition jonesStore : gmap string History := storeAfterSave jonesEvents.

(** A history whose second event [Entity.On] rejects. *)
Definition rejectedStore : gmap string History :=
  storeAfterSave [EntityCreated (mkModel "123" 1 3);
                  EntitySetName (mkModel "123" 2 4) "blah"].

(** The store after the first [CreateEntity] of [TestApply]. *)
Definition createdOnceStore : gmap string History :=
  final (Repository_Apply (memoryRepository []) (Some (CreateEntity "abc"))
           memoryStore.newMemoryStore).

Lemma memoryStore_empty_Save_registers_witness :
  memoryStore.Load memoryStore.newMemoryStore "ghost" 0 0
    = inl (WrapError ("no aggregate found with id, " +:+ "ghost")
                     (ErrorType errAggregateNotFound))
  /\ memoryStore.Load
       (fst (memoryStore.Save memoryStore.newMemoryStore "ghost" []))
       "ghost" 0 0 = inr []
  /\ exists err,
       returned (Repository_Load (memoryRepository []) "ghost"
                   (fst (memoryStore.Save memoryStore.newMemoryStore
                           "ghost" [])))
         = (None, 0, Some err)
       /\ IsNotFoundError (Some err) = true.
Proof.
  refine (memoryStore_empty_Save_registers (memoryRepository [])
            memoryStore.newMemoryStore "ghost" 0 0 _ _); reflexivity.
Defined.

Lemma Repository_Load_folds_history_witness :
  returned (Repository_Load (memoryRepository []) "123" jonesStore)
    = (Some (mkEntity 2 "123" "Jones" 3 4), lastVersion jonesEvents 0, None).
Proof.
  refine (Repository_Load_folds_history (memoryRepository []) "123"
            jonesStore (map recordOf jonesEvents) jonesEvents
            (mkEntity 2 "123" "Jones" 3 4) _ _ _ _).
  - vm_compute. reflexivity.
  - discriminate.
  - repeat constructor; vm_compute; reflexivity.
  - vm_compute. reflexivity.
Defined.

Lemma Repository_Load_decode_failure_witness :
  returned (Repository_Load createdRepository "123" jonesStore)
    = (None, 0,
       Some (WrapError ("unbound event type, " +:+ "EntityNameSet")
                       (ErrorType errUnboundEventType))).
Proof.
  refine (Repository_Load_decode_failure createdRepository "123" jonesStore
            [recordOf (EntityCreated (mkModel "123" 1 3))] []
            (recordOf (EntityNameSet (mkModel "123" 2 4) "Jones"))
            [EntityCreated (mkModel "123" 1 3)]
            (mkEntity 1 "123" "" 3 3) _ _ _ _ _).
  - vm_compute. reflexivity.
  - repeat constructor; vm_compute; reflexivity.
  - vm_compute. reflexivity.
  - vm_compute. reflexivity.
Defined.

Lemma Repository_Load_rejected_event_witness :
  exists failure,
    returned (Repository_Load (memoryRepository []) "123" rejectedStore)
      = (None, 0, Some failure)
    /\ Unwrap failure = Some (ErrorString "UnhandledEvent")
    /\ (forall target,
          xerrors_Is (Some failure) target
          = xerrors_Is (Some (ErrorString "UnhandledEvent")) target)
    /\ Error failure
       = "aggregate was unable to handle event, "
           +:+ EventType (EntitySetName (mkModel "123" 2 4) "blah")
           +:+ ": " +:+ Error (ErrorString "UnhandledEvent").
Proof.
  refine (Repository_Load_rejected_event (memoryRepository []) "123"
            rejectedStore
            [recordOf (EntityCreated (mkModel "123" 1 3))] []
            (recordOf (EntitySetName (mkModel "123" 2 4) "blah"))
            [EntityCreated (mkModel "123" 1 3)]
            (EntitySetName (mkModel "123" 2 4) "blah")
            (mkEntity 1 "123" "" 3 3) (ErrorString "UnhandledEvent")
            _ _ _ _ _).
  - vm_compute. reflexivity.
  - repeat constructor; vm_compute; reflexivity.
  - vm_compute. reflexivity.
  - vm_compute. reflexivity.
  - reflexivity.
Defined.

Lemma Repository_Apply_without_CommandHandler_witness :
  exists aggregate : LocalEntity.Entity,
    returned (Repository_Apply LocalEntity.repository (Some (Nop "abc"))
                memoryStore.newMemoryStore)
      = (0, Some (ErrorString
                    ("aggregate, " +:+ Sprint aggregate
                       +:+ ", does not implement CommandHandler")))
    /\ effects (Repository_Apply LocalEntity.repository (Some (Nop "abc"))
                  memoryStore.newMemoryStore)
       = effects (Repository_Load LocalEntity.repository
                    (CommandAggregateID (Nop "abc"))
                    memoryStore.newMemoryStore)
    /\ final (Repository_Apply LocalEntity.repository (Some (Nop "abc"))
                memoryStore.newMemoryStore)
       = final (Repository_Load LocalEntity.repository
                  (CommandAggregateID (Nop "abc"))
                  memoryStore.newMemoryStore).
Proof.
  refine (Repository_Apply_without_CommandHandler LocalEntity.repository
            (Nop "abc") memoryStore.newMemoryStore _ _).
  - reflexivity.
  - discriminate.
Defined.

Lemma Repository_Apply_handler_failure_witness :
  returned (Repository_Apply Orders.repository
              (Some (Orders.ShipOrder "abc")) memoryStore.newMemoryStore)
    = (0, Some (ErrorString ("order, " +:+ "abc" +:+ ", has already shipped")))
  /\ effects (Repository_Apply Orders.repository
                (Some (Orders.ShipOrder "abc")) memoryStore.newMemoryStore)
     = effects (Repository_Load Orders.repository
                  (CommandAggregateID (Orders.ShipOrder "abc"))
                  memoryStore.newMemoryStore)
  /\ final (Repository_Apply Orders.repository
              (Some (Orders.ShipOrder "abc")) memoryStore.newMemoryStore)
     = final (Repository_Load Orders.repository
                (CommandAggregateID (Orders.ShipOrder "abc"))
                memoryStore.newMemoryStore).
Proof.
  refine (Repository_Apply_handler_failure Orders.repository
            (Orders.ShipOrder "abc") memoryStore.newMemoryStore
            Orders.Order_Apply zero zero
            (ErrorString ("order, " +:+ "abc" +:+ ", has already shipped"))
            _ _ _ _).
  - discriminate.
  - reflexivity.
  - vm_compute. reflexivity.
  - reflexivity.
Defined.

Lemma Repository_Apply_encoding_failure_witness :
  returned (Repository_Apply Orders.repository
              (Some (Orders.ShipOrder "abc")) Orders.createdStore)
    = (0, Some (invalidEncoding "unable to encode event"))
  /\ effects (Repository_Apply Orders.repository
                (Some (Orders.ShipOrder "abc")) Orders.createdStore)
     = effects (Repository_Load Orders.repository
                  (CommandAggregateID (Orders.ShipOrder "abc"))
                  Orders.createdStore)
  /\ final (Repository_Apply Orders.repository
              (Some (Orders.ShipOrder "abc")) Orders.createdStore)
     = final (Repository_Load Orders.repository
                (CommandAggregateID (Orders.ShipOrder "abc"))
                Orders.createdStore).
Proof.
  refine (Repository_Apply_encoding_failure Orders.repository
            (Orders.ShipOrder "abc") Orders.createdStore
            Orders.Order_Apply
            (Orders.mkOrder "abc" 1 0 5 "created")
            (Orders.mkOrder "abc" 1 0 5 "created")
            [Orders.OrderShipped (mkModel "abc" 2 5)]
            (invalidEncoding "unable to encode event") _ _ _ _ _).
  - discriminate.
  - reflexivity.
  - vm_compute. reflexivity.
  - reflexivity.
  - reflexivity.
Defined.

Lemma Repository_Apply_StoreAggregate_path_witness :
  existsb isPlainSave
    (effects (Repository_Apply (storeAggregateRepository [7%nat])
                (Some (CreateEntity "abc")) memoryStore.newMemoryStore))
    = false.
Proof.
  refine (proj1 (Repository_Apply_StoreAggregate_path
                   (storeAggregateRepository [7%nat]) (CreateEntity "abc")
                   memoryStore.newMemoryStore
                   (fun m aggregateID aggregate records =>
                      memoryStore.Save m aggregateID records)
                   Entity_Apply zero zero
                   [EntityCreated (mkModel "abc" 1 5)]
                   [recordOf (EntityCreated (mkModel "abc" 1 5))]
                   _ _ _ _ _ _)).
  - reflexivity.
  - discriminate.
  - reflexivity.
  - vm_compute. reflexivity.
  - reflexivity.
  - vm_compute. reflexivity.
Defined.

Lemma Repository_Apply_plain_path_witness :
  effects (Repository_Apply (memoryRepository [7%nat])
             (Some (CreateEntity "abc")) memoryStore.newMemoryStore)
    = effects (Repository_Load (memoryRepository [7%nat])
                 (CommandAggregateID (CreateEntity "abc"))
                 memoryStore.newMemoryStore)
      ++ [CallSave "abc" [recordOf (EntityCreated (mkModel "abc" 1 5))] None;
          CallObserver 7 (EntityCreated (mkModel "abc" 1 5))].
Proof.
  refine (proj1 (Repository_Apply_plain_path
                   (memoryRepository [7%nat]) (CreateEntity "abc")
                   memoryStore.newMemoryStore
                   Entity_Apply zero zero
                   (EntityCreated (mkModel "abc" 1 5)) []
                   [recordOf (EntityCreated (mkModel "abc" 1 5))]
                   _ _ _ _ _ _)).
  - discriminate.
  - discriminate.
  - reflexivity.
  - vm_compute. reflexivity.
  - reflexivity.
  - vm_compute. reflexivity.
Defined.

Lemma Repository_Apply_publishes_in_order_witness :
  exists events,
    generatedEvents (memoryRepository [7%nat; 8%nat]) (CreateEntity "abc")
                    memoryStore.newMemoryStore = Some events
    /\ List.filter isObserver
         (effects (Repository_Apply (memoryRepository [7%nat; 8%nat])
                     (Some (CreateEntity "abc")) memoryStore.newMemoryStore))
       = flat_map (fun event =>
                     map (fun observer => CallObserver observer event)
                         (observers (memoryRepository [7%nat; 8%nat])))
                  events
    /\ length (List.filter isObserver
                 (effects (Repository_Apply (memoryRepository [7%nat; 8%nat])
                             (Some (CreateEntity "abc"))
                             memoryStore.newMemoryStore)))
       = (length events * length (observers (memoryRepository [7%nat; 8%nat])))%nat.
Proof.
  refine (Repository_Apply_publishes_in_order
            (memoryRepository [7%nat; 8%nat]) (CreateEntity "abc")
            memoryStore.newMemoryStore 1 _).
  vm_compute. reflexivity.
Defined.

Lemma Repository_Save_then_Load_witness :
  returned (Repository_Save (memoryRepository [])
              (EntityCreated (mkModel "123" 1 3)
                 :: [EntityNameSet (mkModel "123" 2 4) "Jones"])
              memoryStore.newMemoryStore) = None
  /\ returned (Repository_Load (memoryRepository [])
                 (AggregateID (EntityCreated (mkModel "123" 1 3)))
                 (final (Repository_Save (memoryRepository [])
                           (EntityCreated (mkModel "123" 1 3)
                              :: [EntityNameSet (mkModel "123" 2 4) "Jones"])
                           memoryStore.newMemoryStore)))
     = (Some (mkEntity 2 "123" "Jones" 3 4),
        lastVersion (EntityCreated (mkModel "123" 1 3)
                       :: [EntityNameSet (mkModel "123" 2 4) "Jones"]) 0,
        None).
Proof.
  refine (Repository_Save_then_Load (memoryRepository [])
            memoryStore.newMemoryStore
            (EntityCreated (mkModel "123" 1 3))
            [EntityNameSet (mkModel "123" 2 4) "Jones"]
            (map recordOf jonesEvents)
            (mkEntity 2 "123" "Jones" 3 4) _ _ _ _ _ _).
  - reflexivity.
  - reflexivity.
  - repeat constructor; vm_compute; reflexivity.
  - repeat constructor; vm_compute; reflexivity.
  - repeat constructor; vm_compute; reflexivity.
  - vm_compute. reflexivity.
Defined.

Lemma Repository_Apply_then_Load_witness :
  returned (Repository_Apply (memoryRepository []) (Some (CreateEntity "abc"))
              createdOnceStore)
    = (lastVersion (EntityCreated (mkModel "abc" 2 5) :: []) 0, None)
  /\ returned (Repository_Load (memoryRepository [])
                 (CommandAggregateID (CreateEntity "abc"))
                 (final (Repository_Apply (memoryRepository [])
                           (Some (CreateEntity "abc")) createdOnceStore)))
     = (Some (mkEntity 2 "abc" "" 5 5),
        lastVersion (EntityCreated (mkModel "abc" 2 5) :: []) 0, None).
Proof.
  refine (Repository_Apply_then_Load (memoryRepository [])
            (CreateEntity "abc") createdOnceStore
            [EntityCreated (mkModel "abc" 1 5)]
            Entity_Apply (mkEntity 1 "abc" "" 5 5) (mkEntity 1 "abc" "" 5 5)
            (EntityCreated (mkModel "abc" 2 5)) []
            [recordOf (EntityCreated (mkModel "abc" 2 5))]
            (mkEntity 2 "abc" "" 5 5) _ _ _ _ _ _ _ _ _ _ _).
  - reflexivity.
  - discriminate.
  - vm_compute. repeat constructor.
  - vm_compute. reflexivity.
  - reflexivity.
  - reflexivity.
  - reflexivity.
  - repeat constructor; vm_compute; reflexivity.
  - repeat constructor; vm_compute; reflexivity.
  - vm_compute. repeat constructor.
  - vm_compute. reflexivity.
Defined.

End MoreOnTheTestAggregates.
